(** * Soft Actor-Critic trainer ([rlkit/torch/sac/sac.py]): a shallow embedding

    The trainer object is a record, [train_from_torch] is a computation in a
    small state-and-exception monad over that record (a Python exception
    leaves the mutations made before it in place).  Tensors are lists of real
    numbers, with real arithmetic standing for the floating-point one.  An
    autograd tensor carries, next to its value, the function of the leaf
    parameters that its graph denotes and the leaves the graph reaches;
    [detach] turns it into a constant.  The differentiation engine, the
    optimizer class and gradient-norm clipping belong to torch and are taken
    as parameters of the development.

    Batches are taken shape-consistent and non-empty, as the trainer assumes
    them: an elementwise operation on tensors of different lengths stops at
    the shorter one here, where torch would broadcast or raise, and the mean
    of an empty tensor is 0 here, where torch gives not-a-number.  A
    one-element tensor ([log_alpha], a loss) is a real number. *)

From Stdlib Require Import Reals Lra List String ZArith Lia.
From Stdlib Require Import ClassicalEpsilon.
Import ListNotations.
Open Scope R_scope.
Set Implicit Arguments.

(** ** Tensors *)

Definition Tensor := list R.
Definition Params := list Tensor.

Fixpoint map2 {A B C : Type} (f : A -> B -> C) (l1 : list A) (l2 : list B) : list C :=
  match l1, l2 with
  | a :: l1', b :: l2' => f a b :: map2 f l1' l2'
  | _, _ => []
  end.

Definition tsum (t : Tensor) : R := fold_right Rplus 0 t.

(** [t.mean()] *)
Definition mean (t : Tensor) : R := tsum t / INR (List.length t).

(** [s * t] and [t + s] with a scalar [s] broadcast over [t] *)
Definition scale (s : R) (t : Tensor) : Tensor := map (Rmult s) t.
Definition adds (t : Tensor) (s : R) : Tensor := map (fun x => x + s) t.
(** [1.0 - t] *)
Definition rsub (s : R) (t : Tensor) : Tensor := map (fun x => s - x) t.
(** [t * s] with the scalar on the right *)
Definition scale_r (t : Tensor) (s : R) : Tensor := map (fun x => x * s) t.

Definition tadd : Tensor -> Tensor -> Tensor := map2 Rplus.
Definition tsub : Tensor -> Tensor -> Tensor := map2 Rminus.
Definition tmul : Tensor -> Tensor -> Tensor := map2 Rmult.
(** [torch.min(a, b)], elementwise *)
Definition tmin : Tensor -> Tensor -> Tensor := map2 Rmin.

(** [nn.MSELoss()] with its default mean reduction *)
Definition MSELoss (input target : Tensor) : R :=
  mean (map (fun d => d * d) (tsub input target)).

(** addition of two gradients of the same parameter set *)
Definition padd : Params -> Params -> Params := map2 tadd.

(** the value of a parameter set holding one scalar, as [log_alpha] does *)
Definition scalar_of (p : Params) : R := hd 0 (hd [] p).

(** ** Autograd *)

Inductive Leaf := LPolicy | LQf1 | LQf2 | LTargetQf1 | LTargetQf2 | LLogAlpha.

Definition Leaf_eqb (a b : Leaf) : bool :=
  match a, b with
  | LPolicy, LPolicy | LQf1, LQf1 | LQf2, LQf2
  | LTargetQf1, LTargetQf1 | LTargetQf2, LTargetQf2 | LLogAlpha, LLogAlpha => true
  | _, _ => false
  end.

Fixpoint leaf_mem (l : Leaf) (ls : list Leaf) : bool :=
  match ls with
  | [] => false
  | l' :: ls' => Leaf_eqb l l' || leaf_mem l ls'
  end.

(** the distinct leaves of a graph *)
Fixpoint leaves_of (ls : list Leaf) : list Leaf :=
  match ls with
  | [] => []
  | l :: ls' => if leaf_mem l ls' then leaves_of ls' else l :: leaves_of ls'
  end.

Definition Leaves := Leaf -> Params.

Definition with_leaf (e : Leaves) (l : Leaf) (p : Params) : Leaves :=
  fun l' => if Leaf_eqb l l' then p else e l'.

(** An autograd tensor: its value, the function of the leaves its graph
    computes, and the leaves the graph reaches. *)
Record Var (A : Type) := mkVar {
  data : A;
  fn : Leaves -> A;
  graph : list Leaf
}.
Arguments mkVar {A}.
Arguments data {A}.
Arguments fn {A}.
Arguments graph {A}.

(** a tensor that requires no gradient: batch data, Python numbers *)
Definition const {A : Type} (a : A) : Var A := mkVar a (fun _ => a) [].

Definition lift1 {A B : Type} (f : A -> B) (v : Var A) : Var B :=
  mkVar (f (data v)) (fun e => f (fn v e)) (graph v).

Definition lift2 {A B C : Type} (f : A -> B -> C) (v1 : Var A) (v2 : Var B) : Var C :=
  mkVar (f (data v1) (data v2)) (fun e => f (fn v1 e) (fn v2 e)) (graph v1 ++ graph v2).

(** [v.detach()] *)
Definition detach {A : Type} (v : Var A) : Var A := const (data v).

(** gradient accumulation into a [.grad] buffer *)
Definition acc_grad (old : option Params) (g : Params) : option Params :=
  match old with
  | None => Some g
  | Some o => Some (padd o g)
  end.

(** ** Statistics *)

(** a reported number, or [np.nan] *)
Inductive StatVal := Num (r : R) | NaN.

(** [OrderedDict]: insertion ordered, a key assigned again keeps its place *)
Definition OrderedDict := list (string * StatVal).

Fixpoint od_set (k : string) (v : StatVal) (d : OrderedDict) : OrderedDict :=
  match d with
  | [] => [(k, v)]
  | (k', v') :: d' => if String.eqb k k' then (k, v) :: d' else (k', v') :: od_set k v d'
  end.

Fixpoint od_get (k : string) (d : OrderedDict) : option StatVal :=
  match d with
  | [] => None
  | (k', v') :: d' => if String.eqb k k' then Some v' else od_get k d'
  end.

(** [d.update(other)] *)
Definition od_update (d other : OrderedDict) : OrderedDict :=
  fold_left (fun acc kv => od_set (fst kv) (snd kv) acc) other d.

Definition od_keys (d : OrderedDict) : list string := map fst d.

Definition tmax_of (t : Tensor) : R :=
  match t with
  | [] => 0
  | x :: t' => fold_left Rmax t' x
  end.

Definition tmin_of (t : Tensor) : R :=
  match t with
  | [] => 0
  | x :: t' => fold_left Rmin t' x
  end.

(** [np.std]: the population standard deviation *)
Definition std (t : Tensor) : R :=
  sqrt (mean (map (fun x => (x - mean t) * (x - mean t)) t)).

(** Modelled from the spec: [create_stats_ordered_dict] of
    [rlkit.core.eval_util] is not among the sources.  The spec describes it as
    producing "distributional summaries (mean/std/min/max-style)" of an array
    under a name; the keys are the name followed by the summary's name. *)
Definition create_stats_ordered_dict (name : string) (d : Tensor) : OrderedDict :=
  [ ((name ++ " Mean")%string, Num (mean d));
    ((name ++ " Std")%string, Num (std d));
    ((name ++ " Min")%string, Num (tmin_of d));
    ((name ++ " Max")%string, Num (tmax_of d)) ].

(** Modelled from the spec: [soft_update_from_to] of
    [rlkit.torch.pytorch_util] is not among the sources.  Spec 4.5: "for every
    matching parameter tensor, target <- tau*online + (1 - tau)*target
    (elementwise exponential moving average)". *)
Definition soft_update_from_to (source target : Params) (tau : R) : Params :=
  map2 (map2 (fun t s => tau * s + (1 - tau) * t)) target source.

(** ** Exceptions *)

Inductive PyExn := AttributeError | ZeroDivisionError.

Inductive Outcome (A : Type) :=
| Val (a : A)
| Exc (e : PyExn).
Arguments Val {A}.
Arguments Exc {A}.

(** Python truthiness of an optional number: [None] and zero are falsy *)
Definition truthy (x : option R) : bool :=
  match x with
  | None => false
  | Some r => if Req_dec_T r 0 then false else true
  end.

(** the values of numpy's [int64], and the value an integer takes in it:
    two's complement, wrapping around *)
Definition int64 (z : Z) : Prop := (- 2 ^ 63 <= z < 2 ^ 63)%Z.
Definition wrap_int64 (z : Z) : Z := ((z + 2 ^ 63) mod 2 ^ 64 - 2 ^ 63)%Z.

(** [np.prod(shape)] of a tuple of dimensions that are [int64] values: numpy
    multiplies from left to right in [int64], without an overflow check; the
    product of the empty tuple is 1 *)
Definition np_prod (shape : list Z) : Z :=
  fold_left (fun acc d => wrap_int64 (acc * d)) shape 1%Z.

Section Trainer.

(** batched observations and actions, and the random draw a policy call uses *)
Variables ObsB ActB Noise : Type.

(** the objects a wrapper such as [DataParallel] holds under its attribute
    [module]; nothing but their identity is used *)
Variable Inner : Type.

(** The optimizer objects of [optimizer_class]: [optimizer_step o p g] is
    [o.step()] on parameters [p] whose gradient buffer is [g]. *)
Variable Optimizer : Type.
Variable optimizer_step : Optimizer -> Params -> option Params -> Optimizer * Params.

(** The differentiation engine: [autograd f p] is the gradient at [p] of the
    scalar function [f] of one parameter set. *)
Variable autograd : (Params -> R) -> Params -> Params.

(** [nn.utils.clip_grad_norm_]: from a gradient buffer and the ceiling, the
    rescaled buffer and the total norm before clipping. *)
Variable clip_grad_norm_ : option Params -> R -> option Params * R.

Record PolicyOut := mkPolicyOut {
  po_action : ActB;
  po_mean : Tensor;
  po_log_std : Tensor;
  po_log_prob : Tensor
}.

(** the policy module: [p_forward params obs reparameterize return_log_prob noise];
    [p_module] is its attribute [module], [None] when it has none *)
Record PolicyNet := mkPolicyNet {
  p_forward : Params -> ObsB -> bool -> bool -> Noise -> PolicyOut;
  p_parameters : Params;
  p_grad : option Params;
  p_module : option Inner
}.

Record QNet := mkQNet {
  q_forward : Params -> ObsB -> ActB -> Tensor;
  q_parameters : Params;
  q_grad : option Params;
  q_module : option Inner
}.

Record Environment := mkEnvironment { action_space_shape : list Z }.

Record Batch := mkBatch {
  rewards : Tensor;
  terminals : Tensor;
  observations : ObsB;
  actions : ActB;
  next_observations : ObsB
}.

(** The trainer object.  An attribute that [__init__] assigns only on some
    paths is an option: [None] is "never assigned". *)
Record SACTrainer := mkSACTrainer {
  env : Environment;
  policy : PolicyNet;
  qf1 : QNet;
  qf2 : QNet;
  target_qf1 : QNet;
  target_qf2 : QNet;
  soft_target_tau : R;
  target_update_period : Z;
  alpha : R;
  use_automatic_entropy_tuning : bool;
  target_entropy : option R;
  log_alpha : option R;
  log_alpha_grad : option Params;
  alpha_optimizer : option Optimizer;
  render_eval_paths : bool;
  policy_optimizer : option Optimizer;
  qf1_optimizer : option Optimizer;
  qf2_optimizer : option Optimizer;
  discount : R;
  reward_scale : R;
  eval_statistics : OrderedDict;
  _n_train_steps_total : Z;
  _need_to_update_eval_statistics : bool
}.

(** the arguments of [__init__] *)
Record InitArgs := mkInitArgs {
  a_env : Environment;
  a_policy : PolicyNet;
  a_qf1 : QNet;
  a_qf2 : QNet;
  a_target_qf1 : QNet;
  a_target_qf2 : QNet;
  a_discount : R;
  a_reward_scale : R;
  a_policy_lr : R;
  a_qf_lr : R;
  a_optimizer_class : Params -> R -> Optimizer;
  a_soft_target_tau : R;
  a_target_update_period : Z;
  a_render_eval_paths : bool;
  a_alpha : R;
  a_use_automatic_entropy_tuning : bool;
  a_target_entropy : option R;
  a_policy_optimizer : option Optimizer;
  a_qf1_optimizer : option Optimizer;
  a_qf2_optimizer : option Optimizer
}.

(** [SACTrainer.__init__] *)
Definition __init__ (a : InitArgs) : SACTrainer :=
  let auto := a_use_automatic_entropy_tuning a in
  {| env := a_env a;
     policy := a_policy a;
     qf1 := a_qf1 a;
     qf2 := a_qf2 a;
     target_qf1 := a_target_qf1 a;
     target_qf2 := a_target_qf2 a;
     soft_target_tau := a_soft_target_tau a;
     target_update_period := a_target_update_period a;
     alpha := a_alpha a;
     use_automatic_entropy_tuning := auto;
     target_entropy :=
       if auto then
         if truthy (a_target_entropy a) then a_target_entropy a
         else Some (- IZR (np_prod (action_space_shape (a_env a))))
       else None;
     log_alpha := if auto then Some 0 else None;
     log_alpha_grad := None;
     alpha_optimizer :=
       if auto then Some (a_optimizer_class a [[0]] (a_policy_lr a)) else None;
     render_eval_paths := a_render_eval_paths a;
     policy_optimizer :=
       match a_policy_optimizer a with
       | None => Some (a_optimizer_class a (p_parameters (a_policy a)) (a_policy_lr a))
       | Some _ => None
       end;
     qf1_optimizer :=
       match a_qf1_optimizer a with
       | None => Some (a_optimizer_class a (q_parameters (a_qf1 a)) (a_qf_lr a))
       | Some _ => None
       end;
     qf2_optimizer :=
       match a_qf2_optimizer a with
       | None => Some (a_optimizer_class a (q_parameters (a_qf2 a)) (a_qf_lr a))
       | Some _ => None
       end;
     discount := a_discount a;
     reward_scale := a_reward_scale a;
     eval_statistics := [];
     _n_train_steps_total := 0%Z;
     _need_to_update_eval_statistics := true |}.

(** ** Attribute assignment: [self.f = x] *)

Definition set_policy (s : SACTrainer) (x : PolicyNet) : SACTrainer :=
  {| env := env s; policy := x; qf1 := qf1 s; qf2 := qf2 s; target_qf1 := target_qf1 s;
     target_qf2 := target_qf2 s; soft_target_tau := soft_target_tau s;
     target_update_period := target_update_period s; alpha := alpha s;
     use_automatic_entropy_tuning := use_automatic_entropy_tuning s;
     target_entropy := target_entropy s; log_alpha := log_alpha s;
     log_alpha_grad := log_alpha_grad s; alpha_optimizer := alpha_optimizer s;
     render_eval_paths := render_eval_paths s; policy_optimizer := policy_optimizer s;
     qf1_optimizer := qf1_optimizer s; qf2_optimizer := qf2_optimizer s;
     discount := discount s; reward_scale := reward_scale s;
     eval_statistics := eval_statistics s; _n_train_steps_total := _n_train_steps_total s;
     _need_to_update_eval_statistics := _need_to_update_eval_statistics s |}.

Definition set_qf1 (s : SACTrainer) (x : QNet) : SACTrainer :=
  {| env := env s; policy := policy s; qf1 := x; qf2 := qf2 s; target_qf1 := target_qf1 s;
     target_qf2 := target_qf2 s; soft_target_tau := soft_target_tau s;
     target_update_period := target_update_period s; alpha := alpha s;
     use_automatic_entropy_tuning := use_automatic_entropy_tuning s;
     target_entropy := target_entropy s; log_alpha := log_alpha s;
     log_alpha_grad := log_alpha_grad s; alpha_optimizer := alpha_optimizer s;
     render_eval_paths := render_eval_paths s; policy_optimizer := policy_optimizer s;
     qf1_optimizer := qf1_optimizer s; qf2_optimizer := qf2_optimizer s;
     discount := discount s; reward_scale := reward_scale s;
     eval_statistics := eval_statistics s; _n_train_steps_total := _n_train_steps_total s;
     _need_to_update_eval_statistics := _need_to_update_eval_statistics s |}.

Definition set_qf2 (s : SACTrainer) (x : QNet) : SACTrainer :=
  {| env := env s; policy := policy s; qf1 := qf1 s; qf2 := x; target_qf1 := target_qf1 s;
     target_qf2 := target_qf2 s; soft_target_tau := soft_target_tau s;
     target_update_period := target_update_period s; alpha := alpha s;
     use_automatic_entropy_tuning := use_automatic_entropy_tuning s;
     target_entropy := target_entropy s; log_alpha := log_alpha s;
     log_alpha_grad := log_alpha_grad s; alpha_optimizer := alpha_optimizer s;
     render_eval_paths := render_eval_paths s; policy_optimizer := policy_optimizer s;
     qf1_optimizer := qf1_optimizer s; qf2_optimizer := qf2_optimizer s;
     discount := discount s; reward_scale := reward_scale s;
     eval_statistics := eval_statistics s; _n_train_steps_total := _n_train_steps_total s;
     _need_to_update_eval_statistics := _need_to_update_eval_statistics s |}.

Definition set_target_qf1 (s : SACTrainer) (x : QNet) : SACTrainer :=
  {| env := env s; policy := policy s; qf1 := qf1 s; qf2 := qf2 s; target_qf1 := x;
     target_qf2 := target_qf2 s; soft_target_tau := soft_target_tau s;
     target_update_period := target_update_period s; alpha := alpha s;
     use_automatic_entropy_tuning := use_automatic_entropy_tuning s;
     target_entropy := target_entropy s; log_alpha := log_alpha s;
     log_alpha_grad := log_alpha_grad s; alpha_optimizer := alpha_optimizer s;
     render_eval_paths := render_eval_paths s; policy_optimizer := policy_optimizer s;
     qf1_optimizer := qf1_optimizer s; qf2_optimizer := qf2_optimizer s;
     discount := discount s; reward_scale := reward_scale s;
     eval_statistics := eval_statistics s; _n_train_steps_total := _n_train_steps_total s;
     _need_to_update_eval_statistics := _need_to_update_eval_statistics s |}.

Definition set_target_qf2 (s : SACTrainer) (x : QNet) : SACTrainer :=
  {| env := env s; policy := policy s; qf1 := qf1 s; qf2 := qf2 s;
     target_qf1 := target_qf1 s; target_qf2 := x; soft_target_tau := soft_target_tau s;
     target_update_period := target_update_period s; alpha := alpha s;
     use_automatic_entropy_tuning := use_automatic_entropy_tuning s;
     target_entropy := target_entropy s; log_alpha := log_alpha s;
     log_alpha_grad := log_alpha_grad s; alpha_optimizer := alpha_optimizer s;
     render_eval_paths := render_eval_paths s; policy_optimizer := policy_optimizer s;
     qf1_optimizer := qf1_optimizer s; qf2_optimizer := qf2_optimizer s;
     discount := discount s; reward_scale := reward_scale s;
     eval_statistics := eval_statistics s; _n_train_steps_total := _n_train_steps_total s;
     _need_to_update_eval_statistics := _need_to_update_eval_statistics s |}.

Definition set_log_alpha (s : SACTrainer) (x : option R) : SACTrainer :=
  {| env := env s; policy := policy s; qf1 := qf1 s; qf2 := qf2 s;
     target_qf1 := target_qf1 s; target_qf2 := target_qf2 s;
     soft_target_tau := soft_target_tau s; target_update_period := target_update_period s;
     alpha := alpha s; use_automatic_entropy_tuning := use_automatic_entropy_tuning s;
     target_entropy := target_entropy s; log_alpha := x; log_alpha_grad := log_alpha_grad s;
     alpha_optimizer := alpha_optimizer s; render_eval_paths := render_eval_paths s;
     policy_optimizer := policy_optimizer s; qf1_optimizer := qf1_optimizer s;
     qf2_optimizer := qf2_optimizer s; discount := discount s;
     reward_scale := reward_scale s; eval_statistics := eval_statistics s;
     _n_train_steps_total := _n_train_steps_total s;
     _need_to_update_eval_statistics := _need_to_update_eval_statistics s |}.

Definition set_log_alpha_grad (s : SACTrainer) (x : option Params) : SACTrainer :=
  {| env := env s; policy := policy s; qf1 := qf1 s; qf2 := qf2 s;
     target_qf1 := target_qf1 s; target_qf2 := target_qf2 s;
     soft_target_tau := soft_target_tau s; target_update_period := target_update_period s;
     alpha := alpha s; use_automatic_entropy_tuning := use_automatic_entropy_tuning s;
     target_entropy := target_entropy s; log_alpha := log_alpha s; log_alpha_grad := x;
     alpha_optimizer := alpha_optimizer s; render_eval_paths := render_eval_paths s;
     policy_optimizer := policy_optimizer s; qf1_optimizer := qf1_optimizer s;
     qf2_optimizer := qf2_optimizer s; discount := discount s;
     reward_scale := reward_scale s; eval_statistics := eval_statistics s;
     _n_train_steps_total := _n_train_steps_total s;
     _need_to_update_eval_statistics := _need_to_update_eval_statistics s |}.

Definition set_alpha_optimizer (s : SACTrainer) (x : option Optimizer) : SACTrainer :=
  {| env := env s; policy := policy s; qf1 := qf1 s; qf2 := qf2 s;
     target_qf1 := target_qf1 s; target_qf2 := target_qf2 s;
     soft_target_tau := soft_target_tau s; target_update_period := target_update_period s;
     alpha := alpha s; use_automatic_entropy_tuning := use_automatic_entropy_tuning s;
     target_entropy := target_entropy s; log_alpha := log_alpha s;
     log_alpha_grad := log_alpha_grad s; alpha_optimizer := x;
     render_eval_paths := render_eval_paths s; policy_optimizer := policy_optimizer s;
     qf1_optimizer := qf1_optimizer s; qf2_optimizer := qf2_optimizer s;
     discount := discount s; reward_scale := reward_scale s;
     eval_statistics := eval_statistics s; _n_train_steps_total := _n_train_steps_total s;
     _need_to_update_eval_statistics := _need_to_update_eval_statistics s |}.

Definition set_policy_optimizer (s : SACTrainer) (x : option Optimizer) : SACTrainer :=
  {| env := env s; policy := policy s; qf1 := qf1 s; qf2 := qf2 s;
     target_qf1 := target_qf1 s; target_qf2 := target_qf2 s;
     soft_target_tau := soft_target_tau s; target_update_period := target_update_period s;
     alpha := alpha s; use_automatic_entropy_tuning := use_automatic_entropy_tuning s;
     target_entropy := target_entropy s; log_alpha := log_alpha s;
     log_alpha_grad := log_alpha_grad s; alpha_optimizer := alpha_optimizer s;
     render_eval_paths := render_eval_paths s; policy_optimizer := x;
     qf1_optimizer := qf1_optimizer s; qf2_optimizer := qf2_optimizer s;
     discount := discount s; reward_scale := reward_scale s;
     eval_statistics := eval_statistics s; _n_train_steps_total := _n_train_steps_total s;
     _need_to_update_eval_statistics := _need_to_update_eval_statistics s |}.

Definition set_qf1_optimizer (s : SACTrainer) (x : option Optimizer) : SACTrainer :=
  {| env := env s; policy := policy s; qf1 := qf1 s; qf2 := qf2 s;
     target_qf1 := target_qf1 s; target_qf2 := target_qf2 s;
     soft_target_tau := soft_target_tau s; target_update_period := target_update_period s;
     alpha := alpha s; use_automatic_entropy_tuning := use_automatic_entropy_tuning s;
     target_entropy := target_entropy s; log_alpha := log_alpha s;
     log_alpha_grad := log_alpha_grad s; alpha_optimizer := alpha_optimizer s;
     render_eval_paths := render_eval_paths s; policy_optimizer := policy_optimizer s;
     qf1_optimizer := x; qf2_optimizer := qf2_optimizer s; discount := discount s;
     reward_scale := reward_scale s; eval_statistics := eval_statistics s;
     _n_train_steps_total := _n_train_steps_total s;
     _need_to_update_eval_statistics := _need_to_update_eval_statistics s |}.

Definition set_qf2_optimizer (s : SACTrainer) (x : option Optimizer) : SACTrainer :=
  {| env := env s; policy := policy s; qf1 := qf1 s; qf2 := qf2 s;
     target_qf1 := target_qf1 s; target_qf2 := target_qf2 s;
     soft_target_tau := soft_target_tau s; target_update_period := target_update_period s;
     alpha := alpha s; use_automatic_entropy_tuning := use_automatic_entropy_tuning s;
     target_entropy := target_entropy s; log_alpha := log_alpha s;
     log_alpha_grad := log_alpha_grad s; alpha_optimizer := alpha_optimizer s;
     render_eval_paths := render_eval_paths s; policy_optimizer := policy_optimizer s;
     qf1_optimizer := qf1_optimizer s; qf2_optimizer := x; discount := discount s;
     reward_scale := reward_scale s; eval_statistics := eval_statistics s;
     _n_train_steps_total := _n_train_steps_total s;
     _need_to_update_eval_statistics := _need_to_update_eval_statistics s |}.

Definition set_eval_statistics (s : SACTrainer) (x : OrderedDict) : SACTrainer :=
  {| env := env s; policy := policy s; qf1 := qf1 s; qf2 := qf2 s;
     target_qf1 := target_qf1 s; target_qf2 := target_qf2 s;
     soft_target_tau := soft_target_tau s; target_update_period := target_update_period s;
     alpha := alpha s; use_automatic_entropy_tuning := use_automatic_entropy_tuning s;
     target_entropy := target_entropy s; log_alpha := log_alpha s;
     log_alpha_grad := log_alpha_grad s; alpha_optimizer := alpha_optimizer s;
     render_eval_paths := render_eval_paths s; policy_optimizer := policy_optimizer s;
     qf1_optimizer := qf1_optimizer s; qf2_optimizer := qf2_optimizer s;
     discount := discount s; reward_scale := reward_scale s; eval_statistics := x;
     _n_train_steps_total := _n_train_steps_total s;
     _need_to_update_eval_statistics := _need_to_update_eval_statistics s |}.

Definition set_n_train_steps_total (s : SACTrainer) (x : Z) : SACTrainer :=
  {| env := env s; policy := policy s; qf1 := qf1 s; qf2 := qf2 s;
     target_qf1 := target_qf1 s; target_qf2 := target_qf2 s;
     soft_target_tau := soft_target_tau s; target_update_period := target_update_period s;
     alpha := alpha s; use_automatic_entropy_tuning := use_automatic_entropy_tuning s;
     target_entropy := target_entropy s; log_alpha := log_alpha s;
     log_alpha_grad := log_alpha_grad s; alpha_optimizer := alpha_optimizer s;
     render_eval_paths := render_eval_paths s; policy_optimizer := policy_optimizer s;
     qf1_optimizer := qf1_optimizer s; qf2_optimizer := qf2_optimizer s;
     discount := discount s; reward_scale := reward_scale s;
     eval_statistics := eval_statistics s; _n_train_steps_total := x;
     _need_to_update_eval_statistics := _need_to_update_eval_statistics s |}.

Definition set_need_to_update_eval_statistics (s : SACTrainer) (x : bool) : SACTrainer :=
  {| env := env s; policy := policy s; qf1 := qf1 s; qf2 := qf2 s;
     target_qf1 := target_qf1 s; target_qf2 := target_qf2 s;
     soft_target_tau := soft_target_tau s; target_update_period := target_update_period s;
     alpha := alpha s; use_automatic_entropy_tuning := use_automatic_entropy_tuning s;
     target_entropy := target_entropy s; log_alpha := log_alpha s;
     log_alpha_grad := log_alpha_grad s; alpha_optimizer := alpha_optimizer s;
     render_eval_paths := render_eval_paths s; policy_optimizer := policy_optimizer s;
     qf1_optimizer := qf1_optimizer s; qf2_optimizer := qf2_optimizer s;
     discount := discount s; reward_scale := reward_scale s;
     eval_statistics := eval_statistics s; _n_train_steps_total := _n_train_steps_total s;
     _need_to_update_eval_statistics := x |}.

Definition set_p_parameters (n : PolicyNet) (p : Params) : PolicyNet :=
  {| p_forward := p_forward n; p_parameters := p; p_grad := p_grad n;
     p_module := p_module n |}.
Definition set_p_grad (n : PolicyNet) (g : option Params) : PolicyNet :=
  {| p_forward := p_forward n; p_parameters := p_parameters n; p_grad := g;
     p_module := p_module n |}.
Definition set_q_parameters (n : QNet) (p : Params) : QNet :=
  {| q_forward := q_forward n; q_parameters := p; q_grad := q_grad n;
     q_module := q_module n |}.
Definition set_q_grad (n : QNet) (g : option Params) : QNet :=
  {| q_forward := q_forward n; q_parameters := q_parameters n; q_grad := g;
     q_module := q_module n |}.

(** ** The leaves of the trainer: parameters and their [.grad] buffers *)

Definition leaf_params (s : SACTrainer) : Leaves :=
  fun l =>
    match l with
    | LPolicy => p_parameters (policy s)
    | LQf1 => q_parameters (qf1 s)
    | LQf2 => q_parameters (qf2 s)
    | LTargetQf1 => q_parameters (target_qf1 s)
    | LTargetQf2 => q_parameters (target_qf2 s)
    | LLogAlpha => match log_alpha s with Some la => [[la]] | None => [] end
    end.

Definition leaf_grad (s : SACTrainer) (l : Leaf) : option Params :=
  match l with
  | LPolicy => p_grad (policy s)
  | LQf1 => q_grad (qf1 s)
  | LQf2 => q_grad (qf2 s)
  | LTargetQf1 => q_grad (target_qf1 s)
  | LTargetQf2 => q_grad (target_qf2 s)
  | LLogAlpha => log_alpha_grad s
  end.

Definition set_leaf_params (s : SACTrainer) (l : Leaf) (p : Params) : SACTrainer :=
  match l with
  | LPolicy => set_policy s (set_p_parameters (policy s) p)
  | LQf1 => set_qf1 s (set_q_parameters (qf1 s) p)
  | LQf2 => set_qf2 s (set_q_parameters (qf2 s) p)
  | LTargetQf1 => set_target_qf1 s (set_q_parameters (target_qf1 s) p)
  | LTargetQf2 => set_target_qf2 s (set_q_parameters (target_qf2 s) p)
  | LLogAlpha => set_log_alpha s (Some (scalar_of p))
  end.

Definition set_leaf_grad (s : SACTrainer) (l : Leaf) (g : option Params) : SACTrainer :=
  match l with
  | LPolicy => set_policy s (set_p_grad (policy s) g)
  | LQf1 => set_qf1 s (set_q_grad (qf1 s) g)
  | LQf2 => set_qf2 s (set_q_grad (qf2 s) g)
  | LTargetQf1 => set_target_qf1 s (set_q_grad (target_qf1 s) g)
  | LTargetQf2 => set_target_qf2 s (set_q_grad (target_qf2 s) g)
  | LLogAlpha => set_log_alpha_grad s g
  end.

(** ** The monad of trainer methods *)

Definition M (A : Type) := SACTrainer -> Outcome A * SACTrainer.

Definition ret {A : Type} (a : A) : M A := fun s => (Val a, s).

Definition bind {A B : Type} (m : M A) (k : A -> M B) : M B :=
  fun s =>
    match m s with
    | (Val a, s') => k a s'
    | (Exc e, s') => (Exc e, s')
    end.

Notation "x <- m ;; k" := (bind m (fun x => k))
  (at level 61, m at next level, right associativity).
Notation "m ;; k" := (bind m (fun _ => k))
  (at level 61, right associativity).

Definition gets {A : Type} (f : SACTrainer -> A) : M A := fun s => (Val (f s), s).
Definition modify (f : SACTrainer -> SACTrainer) : M unit := fun s => (Val tt, f s).
Definition raise {A : Type} (e : PyExn) : M A := fun s => (Exc e, s).

(** reading an attribute that may never have been assigned *)
Definition attr {A : Type} (f : SACTrainer -> option A) : M A :=
  fun s =>
    match f s with
    | Some a => (Val a, s)
    | None => (Exc AttributeError, s)
    end.

(** [a % b] on Python integers *)
Definition py_mod (a b : Z) : M Z :=
  if Z.eqb b 0 then raise ZeroDivisionError else ret (Z.modulo a b).

(** [self.policy(obs, reparameterize=True, return_log_prob=True)] *)
Definition call_policy (obs : ObsB) (eps : Noise) : M (Var PolicyOut) :=
  net <- gets policy ;;
  ret (mkVar (p_forward net (p_parameters net) obs true true eps)
             (fun e => p_forward net (e LPolicy) obs true true eps)
             [LPolicy]).

(** [net(obs, a)] for the critic held in attribute [which], whose
    parameters are the leaf [l] *)
Definition call_qf (which : SACTrainer -> QNet) (l : Leaf) (obs : ObsB) (a : Var ActB)
  : M (Var Tensor) :=
  net <- gets which ;;
  ret (mkVar (q_forward net (q_parameters net) obs (data a))
             (fun e => q_forward net (e l) obs (fn a e))
             (l :: graph a)).

(** [loss.backward()]: every leaf the graph reaches receives, added to its
    buffer, the gradient of the loss as a function of that leaf. *)
Definition backward (loss : Var R) : M unit :=
  fun s =>
    (Val tt,
     fold_left
       (fun s' l =>
          set_leaf_grad s' l
            (acc_grad (leaf_grad s' l)
               (autograd (fun p => fn loss (with_leaf (leaf_params s) l p)) (leaf_params s l))))
       (leaves_of (graph loss)) s).

(** [opt.zero_grad()] for the optimizer in attribute [opt], bound to leaf [l];
    a cleared buffer makes the next [backward] store exactly its gradient *)
Definition zero_grad (opt : SACTrainer -> option Optimizer) (l : Leaf) : M unit :=
  _ <- attr opt ;;
  modify (fun s => set_leaf_grad s l None).

(** [opt.step()]: the parameters are updated in place *)
Definition step (opt : SACTrainer -> option Optimizer)
  (set_opt : SACTrainer -> option Optimizer -> SACTrainer) (l : Leaf) : M unit :=
  o <- attr opt ;;
  p <- gets (fun s => leaf_params s l) ;;
  g <- gets (fun s => leaf_grad s l) ;;
  modify (fun s =>
    set_opt (set_leaf_params s l (snd (optimizer_step o p g)))
            (Some (fst (optimizer_step o p g)))).

(** [nn.utils.clip_grad_norm_(net.parameters(), max_norm)] *)
Definition clip (l : Leaf) (max_norm : R) : M R :=
  g <- gets (fun s => leaf_grad s l) ;;
  modify (fun s => set_leaf_grad s l (fst (clip_grad_norm_ g max_norm))) ;;
  ret (snd (clip_grad_norm_ g max_norm)).

(** ** [train_from_torch] *)

(** the locals of the part headed "Policy and Alpha Loss" *)
Record PolicyLocals := mkPolicyLocals {
  new_obs_actions : Var ActB;
  policy_mean : Var Tensor;
  policy_log_std : Var Tensor;
  log_pi : Var Tensor;
  alpha_loss : Var R;
  alpha_v : Var R;
  q_new_actions : Var Tensor;
  policy_loss : Var R
}.

Definition policy_and_alpha_loss (batch : Batch) (eps : Noise) : M PolicyLocals :=
  let obs := observations batch in
  out <- call_policy obs eps ;;
  let new_obs_actions := lift1 po_action out in
  let policy_mean := lift1 po_mean out in
  let policy_log_std := lift1 po_log_std out in
  let log_pi := lift1 po_log_prob out in
  auto <- gets use_automatic_entropy_tuning ;;
  al <- (if auto : bool then
           la <- attr log_alpha ;;
           te <- attr target_entropy ;;
           let log_alpha_v := mkVar la (fun e => scalar_of (e LLogAlpha)) [LLogAlpha] in
           let alpha_loss :=
             lift1 Ropp
               (lift1 mean
                  (lift2 scale log_alpha_v (detach (lift1 (fun t => adds t te) log_pi)))) in
           zero_grad alpha_optimizer LLogAlpha ;;
           backward alpha_loss ;;
           step alpha_optimizer set_alpha_optimizer LLogAlpha ;;
           la' <- attr log_alpha ;;
           ret (alpha_loss,
                lift1 exp (mkVar la' (fun e => scalar_of (e LLogAlpha)) [LLogAlpha]))
         else
           a <- gets alpha ;;
           ret (const 0, const a)) ;;
  let alpha_loss := fst al in
  let alpha := snd al in
  q1 <- call_qf qf1 LQf1 obs new_obs_actions ;;
  q2 <- call_qf qf2 LQf2 obs new_obs_actions ;;
  let q_new_actions := lift2 tmin q1 q2 in
  let policy_loss := lift1 mean (lift2 tsub (lift2 scale alpha log_pi) q_new_actions) in
  ret (mkPolicyLocals new_obs_actions policy_mean policy_log_std log_pi
         alpha_loss alpha q_new_actions policy_loss).

(** the locals of the part headed "QF Loss" *)
Record QfLocals := mkQfLocals {
  q1_pred : Var Tensor;
  q2_pred : Var Tensor;
  new_log_pi : Var Tensor;
  target_q_values : Var Tensor;
  q_target : Var Tensor;
  qf1_loss : Var R;
  qf2_loss : Var R
}.

Definition qf_loss (batch : Batch) (eps' : Noise) (alpha : Var R) : M QfLocals :=
  let rewards := const (rewards batch) in
  let terminals := const (terminals batch) in
  let obs := observations batch in
  let actions := const (actions batch) in
  let next_obs := next_observations batch in
  q1_pred <- call_qf qf1 LQf1 obs actions ;;
  q2_pred <- call_qf qf2 LQf2 obs actions ;;
  out <- call_policy next_obs eps' ;;
  let new_next_actions := lift1 po_action out in
  let new_log_pi := lift1 po_log_prob out in
  t1 <- call_qf target_qf1 LTargetQf1 next_obs new_next_actions ;;
  t2 <- call_qf target_qf2 LTargetQf2 next_obs new_next_actions ;;
  let target_q_values := lift2 tsub (lift2 tmin t1 t2) (lift2 scale alpha new_log_pi) in
  reward_scale <- gets reward_scale ;;
  discount <- gets discount ;;
  let q_target :=
    lift2 tadd
      (lift1 (scale reward_scale) rewards)
      (lift2 tmul
         (lift1 (fun t => scale_r t discount) (lift1 (rsub 1) terminals))
         target_q_values) in
  let qf1_loss := lift2 MSELoss q1_pred (detach q_target) in
  let qf2_loss := lift2 MSELoss q2_pred (detach q_target) in
  ret (mkQfLocals q1_pred q2_pred new_log_pi target_q_values q_target qf1_loss qf2_loss).

(** the part headed "Update networks", network by network; each update
    returns the gradient norm before clipping *)
Definition update_policy (policy_loss : Var R) : M R :=
  zero_grad policy_optimizer LPolicy ;;
  backward policy_loss ;;
  norm_policy <- clip LPolicy 100 ;;
  step policy_optimizer set_policy_optimizer LPolicy ;;
  ret norm_policy.

Definition update_qf1 (qf1_loss : Var R) : M R :=
  zero_grad qf1_optimizer LQf1 ;;
  backward qf1_loss ;;
  norm_qf1 <- clip LQf1 100 ;;
  step qf1_optimizer set_qf1_optimizer LQf1 ;;
  ret norm_qf1.

Definition update_qf2 (qf2_loss : Var R) : M R :=
  zero_grad qf2_optimizer LQf2 ;;
  backward qf2_loss ;;
  norm_qf2 <- clip LQf2 100 ;;
  step qf2_optimizer set_qf2_optimizer LQf2 ;;
  ret norm_qf2.

Definition update_networks (policy_loss qf1_loss qf2_loss : Var R) : M (R * R * R) :=
  norm_policy <- update_policy policy_loss ;;
  norm_qf1 <- update_qf1 qf1_loss ;;
  norm_qf2 <- update_qf2 qf2_loss ;;
  ret (norm_policy, norm_qf1, norm_qf2).

(** the part headed "Soft Updates" *)
Definition soft_updates : M unit :=
  n <- gets _n_train_steps_total ;;
  period <- gets target_update_period ;;
  r <- py_mod n period ;;
  if Z.eqb r 0 then
    modify (fun s =>
      set_leaf_params s LTargetQf1
        (soft_update_from_to (q_parameters (qf1 s)) (q_parameters (target_qf1 s))
           (soft_target_tau s))) ;;
    modify (fun s =>
      set_leaf_params s LTargetQf2
        (soft_update_from_to (q_parameters (qf2 s)) (q_parameters (target_qf2 s))
           (soft_target_tau s)))
  else ret tt.

(** [self.eval_statistics[k] = v] and [self.eval_statistics.update(d)]: the
    one mapping created by [__init__] is assigned into *)
Definition stat_set (k : string) (v : StatVal) : M unit :=
  modify (fun s => set_eval_statistics s (od_set k v (eval_statistics s))).
Definition stat_update (d : OrderedDict) : M unit :=
  modify (fun s => set_eval_statistics s (od_update (eval_statistics s) d)).

(** the part headed "Save some statistics for eval" *)
Definition save_statistics (L : PolicyLocals) (Q : QfLocals) (norms : R * R * R) : M unit :=
  let '(norm_policy, norm_qf1, norm_qf2) := norms in
  need <- gets _need_to_update_eval_statistics ;;
  if need : bool then
    modify (fun s => set_need_to_update_eval_statistics s false) ;;
    let policy_loss := lift1 mean (lift2 tsub (log_pi L) (q_new_actions L)) in
    stat_set "QF1 Loss" (Num (data (qf1_loss Q))) ;;
    stat_set "QF2 Loss" (Num (data (qf2_loss Q))) ;;
    stat_set "Policy Loss" (Num (data policy_loss)) ;;
    stat_set "QF1 Grad Norm" (Num norm_qf1) ;;
    stat_set "QF2 Grad Norm" (Num norm_qf2) ;;
    stat_set "Policy Grad Norm" (Num norm_policy) ;;
    stat_update (create_stats_ordered_dict "Q1 Predictions" (data (q1_pred Q))) ;;
    stat_update (create_stats_ordered_dict "Q2 Predictions" (data (q2_pred Q))) ;;
    stat_update (create_stats_ordered_dict "Q1 Predictions" (data (q1_pred Q))) ;;
    stat_update (create_stats_ordered_dict "Q2 Predictions" (data (q2_pred Q))) ;;
    stat_update (create_stats_ordered_dict "Q Targets" (data (q_target Q))) ;;
    stat_update (create_stats_ordered_dict "Log Pis" (data (log_pi L))) ;;
    stat_update (create_stats_ordered_dict "Policy mu" (data (policy_mean L))) ;;
    stat_update (create_stats_ordered_dict "Policy log std" (data (policy_log_std L))) ;;
    stat_set "Alpha" (Num (data (alpha_v L))) ;;
    auto <- gets use_automatic_entropy_tuning ;;
    stat_set "Alpha Loss" (if auto : bool then Num (data (alpha_loss L)) else NaN)
  else ret tt.

Definition train_from_torch (batch : Batch) (eps eps' : Noise) : M unit :=
  L <- policy_and_alpha_loss batch eps ;;
  Q <- qf_loss batch eps' (alpha_v L) ;;
  norms <- update_networks (policy_loss L) (qf1_loss Q) (qf2_loss Q) ;;
  soft_updates ;;
  save_statistics L Q norms ;;
  modify (fun s => set_n_train_steps_total s (_n_train_steps_total s + 1)%Z).

(** the locals of a call as it reaches the part headed "Soft Updates" *)
Definition call_locals (batch : Batch) (eps eps' : Noise)
  : M (PolicyLocals * QfLocals * (R * R * R)) :=
  L <- policy_and_alpha_loss batch eps ;;
  Q <- qf_loss batch eps' (alpha_v L) ;;
  norms <- update_networks (policy_loss L) (qf1_loss Q) (qf2_loss Q) ;;
  ret (L, Q, norms).

Definition get_diagnostics (s : SACTrainer) : OrderedDict := eval_statistics s.

Definition end_epoch (epoch : Z) : M unit :=
  modify (fun s => set_need_to_update_eval_statistics s true).

(** what the snapshot holds under the key of a network: the network itself,
    or the object under its attribute [module] *)
Inductive Saved (N : Type) :=
| Itself (n : N)
| ItsModule (m : Inner).
Arguments Itself {N}.
Arguments ItsModule {N}.

(** the mapping [get_snapshot] returns *)
Record Snapshot := mkSnapshot {
  sn_policy : Saved PolicyNet;
  sn_qf1 : Saved QNet;
  sn_qf2 : Saved QNet;
  sn_target_qf1 : Saved QNet;
  sn_target_qf2 : Saved QNet;
  sn_policy_optimizer : Optimizer;
  sn_qf1_optimizer : Optimizer;
  sn_qf2_optimizer : Optimizer
}.

(** the body of the loop over the items, for the key of a network:
    [if hasattr(v, "module"): snapshot[k] = v.module] *)
Definition unwrap_policy (v : Saved PolicyNet) : Saved PolicyNet :=
  match v with
  | Itself n => match p_module n with Some m => ItsModule m | None => v end
  | ItsModule _ => v
  end.

Definition unwrap_qf (v : Saved QNet) : Saved QNet :=
  match v with
  | Itself n => match q_module n with Some m => ItsModule m | None => v end
  | ItsModule _ => v
  end.

(** [get_snapshot]: the dictionary is built first, which reads the three
    optimizers after the five networks; the loop then visits the items in
    insertion order and passes over the keys that contain "optimizer" *)
Definition get_snapshot : M Snapshot :=
  policy <- gets policy ;;
  qf1 <- gets qf1 ;;
  qf2 <- gets qf2 ;;
  target_qf1 <- gets target_qf1 ;;
  target_qf2 <- gets target_qf2 ;;
  policy_optimizer <- attr policy_optimizer ;;
  qf1_optimizer <- attr qf1_optimizer ;;
  qf2_optimizer <- attr qf2_optimizer ;;
  let snapshot :=
    mkSnapshot (Itself policy) (Itself qf1) (Itself qf2) (Itself target_qf1)
      (Itself target_qf2) policy_optimizer qf1_optimizer qf2_optimizer in
  ret (mkSnapshot (unwrap_policy (sn_policy snapshot)) (unwrap_qf (sn_qf1 snapshot))
         (unwrap_qf (sn_qf2 snapshot)) (unwrap_qf (sn_target_qf1 snapshot))
         (unwrap_qf (sn_target_qf2 snapshot))
         (sn_policy_optimizer snapshot) (sn_qf1_optimizer snapshot)
         (sn_qf2_optimizer snapshot)).

(** ** Trainers on which a call runs to its end *)

Definition optimizers_assigned (s : SACTrainer) : Prop :=
  policy_optimizer s <> None /\ qf1_optimizer s <> None /\ qf2_optimizer s <> None.

Definition entropy_assigned (s : SACTrainer) : Prop :=
  use_automatic_entropy_tuning s = true ->
  log_alpha s <> None /\ target_entropy s <> None /\ alpha_optimizer s <> None.

(** every attribute a call reads has been assigned and the update period
    is not zero (spec 3: [target_update_period >= 1]) *)
Definition initialized (s : SACTrainer) : Prop :=
  optimizers_assigned s /\ entropy_assigned s /\ target_update_period s <> 0%Z.

(** the trainer after a sequence of training calls, whatever each returned *)
Definition train_many (calls : list (Batch * Noise * Noise)) (s : SACTrainer) : SACTrainer :=
  fold_left (fun s' c => snd (train_from_torch (fst (fst c)) (snd (fst c)) (snd c) s')) calls s.

(** the entries a recompute assigns, in the order of the assignments *)
Definition statistics_entries (L : PolicyLocals) (Q : QfLocals) (norms : R * R * R)
  (auto : bool) : OrderedDict :=
  let '(norm_policy, norm_qf1, norm_qf2) := norms in
  [ ("QF1 Loss"%string, Num (data (qf1_loss Q)));
    ("QF2 Loss"%string, Num (data (qf2_loss Q)));
    ("Policy Loss"%string, Num (mean (tsub (data (log_pi L)) (data (q_new_actions L)))));
    ("QF1 Grad Norm"%string, Num norm_qf1);
    ("QF2 Grad Norm"%string, Num norm_qf2);
    ("Policy Grad Norm"%string, Num norm_policy) ]
  ++ create_stats_ordered_dict "Q1 Predictions" (data (q1_pred Q))
  ++ create_stats_ordered_dict "Q2 Predictions" (data (q2_pred Q))
  ++ create_stats_ordered_dict "Q1 Predictions" (data (q1_pred Q))
  ++ create_stats_ordered_dict "Q2 Predictions" (data (q2_pred Q))
  ++ create_stats_ordered_dict "Q Targets" (data (q_target Q))
  ++ create_stats_ordered_dict "Log Pis" (data (log_pi L))
  ++ create_stats_ordered_dict "Policy mu" (data (policy_mean L))
  ++ create_stats_ordered_dict "Policy log std" (data (policy_log_std L))
  ++ [ ("Alpha"%string, Num (data (alpha_v L)));
       ("Alpha Loss"%string, if auto then Num (data (alpha_loss L)) else NaN) ].

(** the keys a recompute assigns *)
Definition statistics_keys : list string :=
  [ "QF1 Loss"; "QF2 Loss"; "Policy Loss"; "QF1 Grad Norm"; "QF2 Grad Norm";
    "Policy Grad Norm" ]%string
  ++ od_keys (create_stats_ordered_dict "Q1 Predictions" [])
  ++ od_keys (create_stats_ordered_dict "Q2 Predictions" [])
  ++ od_keys (create_stats_ordered_dict "Q1 Predictions" [])
  ++ od_keys (create_stats_ordered_dict "Q2 Predictions" [])
  ++ od_keys (create_stats_ordered_dict "Q Targets" [])
  ++ od_keys (create_stats_ordered_dict "Log Pis" [])
  ++ od_keys (create_stats_ordered_dict "Policy mu" [])
  ++ od_keys (create_stats_ordered_dict "Policy log std" [])
  ++ [ "Alpha"; "Alpha Loss" ]%string.

(** trainers as a caller obtains them: constructed with every attribute
    assigned, then driven by training calls and [end_epoch] *)
Inductive driven : SACTrainer -> Prop :=
| driven_init (a : InitArgs) : initialized (__init__ a) -> driven (__init__ a)
| driven_train (s : SACTrainer) (b : Batch) (eps eps' : Noise) :
    driven s -> driven (snd (train_from_torch b eps eps' s))
| driven_end_epoch (s : SACTrainer) (epoch : Z) :
    driven s -> driven (snd (end_epoch epoch s)).

(** [q_target] of a call as a function of the policy parameters [theta] that
    the bootstrap evaluation on the next observations uses *)
Definition bootstrap_target (s : SACTrainer) (b : Batch) (eps' : Noise) (a : R)
  (theta : Params) : Tensor :=
  let out := p_forward (policy s) theta (next_observations b) true true eps' in
  tadd (scale (reward_scale s) (rewards b))
    (tmul (scale_r (rsub 1 (terminals b)) (discount s))
       (tsub
          (tmin
             (q_forward (target_qf1 s) (q_parameters (target_qf1 s))
                (next_observations b) (po_action out))
             (q_forward (target_qf2 s) (q_parameters (target_qf2 s))
                (next_observations b) (po_action out)))
          (scale a (po_log_prob out)))).

(** ** Variants of a trainer, and what a call leaves alone *)

(** the same trainer with another fixed coefficient *)
Definition with_alpha (s : SACTrainer) (x : R) : SACTrainer :=
  {| env := env s; policy := policy s; qf1 := qf1 s; qf2 := qf2 s;
     target_qf1 := target_qf1 s; target_qf2 := target_qf2 s;
     soft_target_tau := soft_target_tau s; target_update_period := target_update_period s;
     alpha := x; use_automatic_entropy_tuning := use_automatic_entropy_tuning s;
     target_entropy := target_entropy s; log_alpha := log_alpha s;
     log_alpha_grad := log_alpha_grad s; alpha_optimizer := alpha_optimizer s;
     render_eval_paths := render_eval_paths s; policy_optimizer := policy_optimizer s;
     qf1_optimizer := qf1_optimizer s; qf2_optimizer := qf2_optimizer s;
     discount := discount s; reward_scale := reward_scale s;
     eval_statistics := eval_statistics s; _n_train_steps_total := _n_train_steps_total s;
     _need_to_update_eval_statistics := _need_to_update_eval_statistics s |}.

(** the same trainer with another update period *)
Definition with_period (s : SACTrainer) (x : Z) : SACTrainer :=
  {| env := env s; policy := policy s; qf1 := qf1 s; qf2 := qf2 s;
     target_qf1 := target_qf1 s; target_qf2 := target_qf2 s;
     soft_target_tau := soft_target_tau s; target_update_period := x; alpha := alpha s;
     use_automatic_entropy_tuning := use_automatic_entropy_tuning s;
     target_entropy := target_entropy s; log_alpha := log_alpha s;
     log_alpha_grad := log_alpha_grad s; alpha_optimizer := alpha_optimizer s;
     render_eval_paths := render_eval_paths s; policy_optimizer := policy_optimizer s;
     qf1_optimizer := qf1_optimizer s; qf2_optimizer := qf2_optimizer s;
     discount := discount s; reward_scale := reward_scale s;
     eval_statistics := eval_statistics s; _n_train_steps_total := _n_train_steps_total s;
     _need_to_update_eval_statistics := _need_to_update_eval_statistics s |}.

(** the same trainer with other contents in the gradient buffers that the
    four optimizers clear *)
Definition with_grads (s : SACTrainer) (gp g1 g2 ga : option Params) : SACTrainer :=
  set_log_alpha_grad
    (set_qf2
       (set_qf1 (set_policy s (set_p_grad (policy s) gp)) (set_q_grad (qf1 s) g1))
       (set_q_grad (qf2 s) g2))
    ga.

(** the attributes [__init__] takes from its arguments and no method assigns *)
Definition hyperparameters (s : SACTrainer) :=
  (env s, soft_target_tau s, target_update_period s, alpha s,
   use_automatic_entropy_tuning s, target_entropy s, render_eval_paths s,
   discount s, reward_scale s).

(** the forward functions of the five networks *)
Definition architecture (s : SACTrainer) :=
  (p_forward (policy s), q_forward (qf1 s), q_forward (qf2 s),
   q_forward (target_qf1 s), q_forward (target_qf2 s)).

(** the attribute [module] of the five networks *)
Definition module_attributes (s : SACTrainer) :=
  (p_module (policy s), q_module (qf1 s), q_module (qf2 s),
   q_module (target_qf1 s), q_module (target_qf2 s)).

Definition is_assigned {A : Type} (o : option A) : bool :=
  match o with Some _ => true | None => false end.

(** which optimizer attributes have been assigned *)
Definition assigned_optimizers (s : SACTrainer) : bool * bool * bool * bool :=
  (is_assigned (policy_optimizer s), is_assigned (qf1_optimizer s),
   is_assigned (qf2_optimizer s), is_assigned (alpha_optimizer s)).

(** what no training call changes, whether it returns or raises *)
Definition fixed_part (s : SACTrainer) :=
  (hyperparameters s, architecture s, module_attributes s, assigned_optimizers s).

(** a computation that leaves [fixed_part] as it found it *)
Definition keeps_fixed {A : Type} (m : M A) : Prop :=
  forall s, fixed_part (snd (m s)) = fixed_part s.

End Trainer.

Arguments Itself {Inner N} n.
Arguments ItsModule {Inner N} m.

(** ** The formulas of the spec, row by row *)

(** prod(action_space.shape), the product of the dimensions as integers *)
Definition spec_prod (shape : list Z) : Z := fold_right Z.mul 1%Z shape.

Fixpoint rows5 (f : R -> R -> R -> R -> R -> R) (a b c d e : Tensor) : Tensor :=
  match a, b, c, d, e with
  | x :: a', y :: b', z :: c', u :: d', v :: e' => f x y z u v :: rows5 f a' b' c' d' e'
  | _, _, _, _, _ => []
  end.

(** spec 4.3: reward_scale*reward + (1 - terminal)*discount*(min(t1, t2) - alpha*log_pi) *)
Definition spec_q_target (reward_scale discount a : R)
  (rewards terminals t1 t2 log_pi' : Tensor) : Tensor :=
  rows5 (fun r d x y l => reward_scale * r + (1 - d) * discount * (Rmin x y - a * l))
    rewards terminals t1 t2 log_pi'.

(** spec 4.1: -mean(log_alpha * (log_pi + target_entropy)) *)
Definition spec_alpha_loss (la te : R) (log_pi : Tensor) : R :=
  - mean (map (fun l => la * (l + te)) log_pi).

(** spec 4.4: mean(alpha*log_pi - min(q1, q2)) *)
Definition spec_policy_loss (a : R) (log_pi q1 q2 : Tensor) : R :=
  mean (map2 (fun l q => a * l - q) log_pi (map2 Rmin q1 q2)).

(** spec 4.6: the reported variant, mean(log_pi - min(q1, q2)) *)
Definition spec_reported_policy_loss (log_pi q1 q2 : Tensor) : R :=
  mean (map2 (fun l q => l - q) log_pi (map2 Rmin q1 q2)).

(** spec 4.3: the mean squared error of predictions against targets *)
Definition spec_mse (input target : Tensor) : R :=
  mean (map2 (fun x y => (x - y) * (x - y)) input target).

(** two parameter sets of one architecture *)
Definition same_shape (p q : Params) : Prop :=
  Forall2 (fun t u => List.length t = List.length u) p q.

(** ** A concrete engine: exact derivatives, gradient descent, norm clipping *)

(** the derivative of [f] at [x], where it exists *)
Definition deriv (f : R -> R) (x : R) : R :=
  epsilon (inhabits 0) (fun l => derivable_pt_lim f x l).

Fixpoint upd {A : Type} (l : list A) (n : nat) (a : A) : list A :=
  match l, n with
  | [], _ => []
  | _ :: r, O => a :: r
  | h :: r, S k => h :: upd r k a
  end.

Fixpoint mapi_from {A B : Type} (f : nat -> A -> B) (i : nat) (l : list A) : list B :=
  match l with
  | [] => []
  | a :: r => f i a :: mapi_from f (S i) r
  end.

(** the gradient as the tensor of partial derivatives *)
Definition exact_autograd (f : Params -> R) (p : Params) : Params :=
  mapi_from
    (fun i t => mapi_from (fun j x => deriv (fun y => f (upd p i (upd t j y))) x) 0 t)
    0 p.

(** plain gradient descent; the optimizer object is its learning rate *)
Definition sgd_step (lr : R) (p : Params) (g : option Params) : R * Params :=
  (lr, match g with
       | Some g => map2 (map2 (fun x d => x - lr * d)) p g
       | None => p
       end).

Definition total_norm (g : Params) : R :=
  sqrt (tsum (map (fun x => x * x) (List.concat g))).

(** [clip_grad_norm_] as torch documents it: the gradients are scaled by
    [max_norm / (total_norm + 1e-6)] when that is less than one *)
Definition clip_by_norm (g : option Params) (max_norm : R) : option Params * R :=
  match g with
  | None => (None, 0)
  | Some g =>
      let c := max_norm / (total_norm g + / 1000000) in
      (Some (if Rlt_dec c 1 then map (scale c) g else g), total_norm g)
  end.

(** ** A small trainer: one-parameter networks on batches of one row *)

Module Toy.

Definition policy_forward (theta : Params) (obs : Tensor) (_ _ : bool) (_ : unit)
  : PolicyOut Tensor :=
  {| po_action := scale (scalar_of theta) obs;
     po_mean := scale (scalar_of theta) obs;
     po_log_std := map (fun _ => 0) obs;
     po_log_prob := map (fun _ => scalar_of theta) obs |}.

Definition critic_forward (phi : Params) (obs act : Tensor) : Tensor :=
  adds act (scalar_of phi).

Definition net (w : R) : PolicyNet Tensor Tensor unit string :=
  {| p_forward := policy_forward; p_parameters := [[w]]; p_grad := None;
     p_module := None |}.

Definition critic (c : R) : QNet Tensor Tensor string :=
  {| q_forward := critic_forward; q_parameters := [[c]]; q_grad := None;
     q_module := None |}.

Definition args (auto : bool) : InitArgs Tensor Tensor unit string R :=
  {| a_env := {| action_space_shape := [1%Z] |};
     a_policy := net 1;
     a_qf1 := critic 0;
     a_qf2 := critic 1;
     a_target_qf1 := critic 0;
     a_target_qf2 := critic 1;
     a_discount := / 2;
     a_reward_scale := 1;
     a_policy_lr := 1;
     a_qf_lr := 1;
     a_optimizer_class := fun _ lr => lr;
     a_soft_target_tau := 1;
     a_target_update_period := 1%Z;
     a_render_eval_paths := false;
     a_alpha := 1;
     a_use_automatic_entropy_tuning := auto;
     a_target_entropy := Some (-1);
     a_policy_optimizer := None;
     a_qf1_optimizer := None;
     a_qf2_optimizer := None |}.

(** the trainer that [__init__ (args auto)] constructs *)
Definition constructed (auto : bool) : SACTrainer Tensor Tensor unit string R :=
  {| env := {| action_space_shape := [1%Z] |};
     policy := net 1;
     qf1 := critic 0;
     qf2 := critic 1;
     target_qf1 := critic 0;
     target_qf2 := critic 1;
     soft_target_tau := 1;
     target_update_period := 1%Z;
     alpha := 1;
     use_automatic_entropy_tuning := auto;
     target_entropy := if auto then Some (-1) else None;
     log_alpha := if auto then Some 0 else None;
     log_alpha_grad := None;
     alpha_optimizer := if auto then Some 1 else None;
     render_eval_paths := false;
     policy_optimizer := Some 1;
     qf1_optimizer := Some 1;
     qf2_optimizer := Some 1;
     discount := / 2;
     reward_scale := 1;
     eval_statistics := [];
     _n_train_steps_total := 0%Z;
     _need_to_update_eval_statistics := true |}.

(** with automatic entropy tuning, and with the fixed coefficient *)
Abbreviation trainer := (constructed true).
Abbreviation trainer_fixed := (constructed false).

Definition batch : Batch Tensor Tensor :=
  {| rewards := [1]; terminals := [0]; observations := [2]; actions := [1];
     next_observations := [3] |}.

Abbreviation train b := (train_from_torch sgd_step exact_autograd clip_by_norm b tt tt).

(** a trainer whose statistics mapping already holds a key of another origin *)
Definition trainer_with_stale_key : SACTrainer Tensor Tensor unit string R :=
  set_eval_statistics trainer [("Stale"%string, Num 0)].

(** constructor arguments that pass a policy optimizer *)
Definition args_with_policy_optimizer : InitArgs Tensor Tensor unit string R :=
  {| a_env := a_env (args true); a_policy := a_policy (args true);
     a_qf1 := a_qf1 (args true); a_qf2 := a_qf2 (args true);
     a_target_qf1 := a_target_qf1 (args true); a_target_qf2 := a_target_qf2 (args true);
     a_discount := / 2; a_reward_scale := 1; a_policy_lr := 1; a_qf_lr := 1;
     a_optimizer_class := fun _ lr => lr; a_soft_target_tau := 1;
     a_target_update_period := 1%Z; a_render_eval_paths := false; a_alpha := 1;
     a_use_automatic_entropy_tuning := true; a_target_entropy := Some 0;
     a_policy_optimizer := Some (/ 10); a_qf1_optimizer := None;
     a_qf2_optimizer := None |}.

End Toy.

(** ** Variants of the small trainer *)

Module ToyCases.

(** the critic optimizer was never assigned *)
Abbreviation without_qf1_optimizer := (set_qf1_optimizer Toy.trainer None).

(** an update period of zero *)
Abbreviation with_zero_period := (with_period Toy.trainer 0%Z).

(** constructor arguments with an update period of three *)
Definition args_period_three : InitArgs Tensor Tensor unit string R :=
  {| a_env := a_env (Toy.args true); a_policy := a_policy (Toy.args true);
     a_qf1 := a_qf1 (Toy.args true); a_qf2 := a_qf2 (Toy.args true);
     a_target_qf1 := a_target_qf1 (Toy.args true);
     a_target_qf2 := a_target_qf2 (Toy.args true);
     a_discount := / 2; a_reward_scale := 1; a_policy_lr := 1; a_qf_lr := 1;
     a_optimizer_class := fun _ lr => lr; a_soft_target_tau := / 2;
     a_target_update_period := 3%Z; a_render_eval_paths := false; a_alpha := 1;
     a_use_automatic_entropy_tuning := true; a_target_entropy := None;
     a_policy_optimizer := None; a_qf1_optimizer := None;
     a_qf2_optimizer := None |}.

(** a second batch sharing the observations of [Toy.batch] *)
Definition other_batch : Batch Tensor Tensor :=
  {| rewards := [5]; terminals := [1]; observations := [2]; actions := [7];
     next_observations := [4] |}.

(** the small policy inside a wrapper that holds it under [module] *)
Definition wrapped_policy : PolicyNet Tensor Tensor unit string :=
  {| p_forward := Toy.policy_forward; p_parameters := [[1]]; p_grad := None;
     p_module := Some "inner policy"%string |}.

Abbreviation with_wrapped_policy := (set_policy Toy.trainer wrapped_policy).

End ToyCases.

(** ** Symbolic execution of the trainer's methods *)

Ltac exec_in_goal :=
  lazy beta iota zeta delta
    [train_from_torch policy_and_alpha_loss qf_loss update_networks soft_updates
     update_policy update_qf1 update_qf2
     save_statistics zero_grad step clip backward call_policy call_qf py_mod
     stat_set stat_update bind gets modify attr ret raise end_epoch get_snapshot
     train_many statistics_entries __init__ call_locals od_update
     create_stats_ordered_dict
     env policy qf1 qf2 target_qf1 target_qf2 soft_target_tau target_update_period
     alpha use_automatic_entropy_tuning target_entropy log_alpha log_alpha_grad
     alpha_optimizer render_eval_paths policy_optimizer qf1_optimizer qf2_optimizer
     discount reward_scale eval_statistics _n_train_steps_total
     _need_to_update_eval_statistics
     set_policy set_qf1 set_qf2 set_target_qf1 set_target_qf2 set_log_alpha
     set_log_alpha_grad set_alpha_optimizer set_policy_optimizer set_qf1_optimizer
     set_qf2_optimizer set_eval_statistics set_n_train_steps_total
     set_need_to_update_eval_statistics
     p_forward p_parameters p_grad p_module q_forward q_parameters q_grad q_module
     unwrap_policy unwrap_qf sn_policy sn_qf1 sn_qf2 sn_target_qf1 sn_target_qf2
     sn_policy_optimizer sn_qf1_optimizer sn_qf2_optimizer
     set_p_parameters set_p_grad set_q_parameters set_q_grad
     leaf_params leaf_grad set_leaf_params set_leaf_grad with_leaf acc_grad
     data fn graph const lift1 lift2 detach
     new_obs_actions policy_mean policy_log_std log_pi alpha_loss alpha_v
     q_new_actions policy_loss
     q1_pred q2_pred new_log_pi target_q_values q_target qf1_loss qf2_loss
     a_env a_policy a_qf1 a_qf2 a_target_qf1 a_target_qf2 a_discount a_reward_scale
     a_policy_lr a_qf_lr a_optimizer_class a_soft_target_tau a_target_update_period
     a_render_eval_paths a_alpha a_use_automatic_entropy_tuning a_target_entropy
     a_policy_optimizer a_qf1_optimizer a_qf2_optimizer
     leaves_of leaf_mem Leaf_eqb orb scalar_of hd
     with_alpha with_period with_grads hyperparameters architecture module_attributes
     assigned_optimizers is_assigned fixed_part
     fold_left app fst snd].

Ltac exec_in H :=
  lazy beta iota zeta delta
    [train_from_torch policy_and_alpha_loss qf_loss update_networks soft_updates
     update_policy update_qf1 update_qf2
     save_statistics zero_grad step clip backward call_policy call_qf py_mod
     stat_set stat_update bind gets modify attr ret raise end_epoch get_snapshot
     train_many statistics_entries __init__ call_locals od_update
     create_stats_ordered_dict
     env policy qf1 qf2 target_qf1 target_qf2 soft_target_tau target_update_period
     alpha use_automatic_entropy_tuning target_entropy log_alpha log_alpha_grad
     alpha_optimizer render_eval_paths policy_optimizer qf1_optimizer qf2_optimizer
     discount reward_scale eval_statistics _n_train_steps_total
     _need_to_update_eval_statistics
     set_policy set_qf1 set_qf2 set_target_qf1 set_target_qf2 set_log_alpha
     set_log_alpha_grad set_alpha_optimizer set_policy_optimizer set_qf1_optimizer
     set_qf2_optimizer set_eval_statistics set_n_train_steps_total
     set_need_to_update_eval_statistics
     p_forward p_parameters p_grad p_module q_forward q_parameters q_grad q_module
     unwrap_policy unwrap_qf sn_policy sn_qf1 sn_qf2 sn_target_qf1 sn_target_qf2
     sn_policy_optimizer sn_qf1_optimizer sn_qf2_optimizer
     set_p_parameters set_p_grad set_q_parameters set_q_grad
     leaf_params leaf_grad set_leaf_params set_leaf_grad with_leaf acc_grad
     data fn graph const lift1 lift2 detach
     new_obs_actions policy_mean policy_log_std log_pi alpha_loss alpha_v
     q_new_actions policy_loss
     q1_pred q2_pred new_log_pi target_q_values q_target qf1_loss qf2_loss
     a_env a_policy a_qf1 a_qf2 a_target_qf1 a_target_qf2 a_discount a_reward_scale
     a_policy_lr a_qf_lr a_optimizer_class a_soft_target_tau a_target_update_period
     a_render_eval_paths a_alpha a_use_automatic_entropy_tuning a_target_entropy
     a_policy_optimizer a_qf1_optimizer a_qf2_optimizer
     leaves_of leaf_mem Leaf_eqb orb scalar_of hd
     with_alpha with_period with_grads hyperparameters architecture module_attributes
     assigned_optimizers is_assigned fixed_part
     fold_left app fst snd] in H.

Tactic Notation "exec" := exec_in_goal.
Tactic Notation "exec" "in" hyp(H) := exec_in H.

(** * Properties *)

(** ** Tensor arithmetic *)

Lemma tsum_squares_nonneg (t : Tensor) : 0 <= tsum (map (fun d => d * d) t).
Proof.
  induction t as [|x t IH]; simpl.
  - lra.
  - pose proof (Rle_0_sqr x) as Hx. unfold Rsqr in Hx. lra.
Qed.

Lemma mean_nonneg (t : Tensor) : 0 <= tsum t -> 0 <= mean t.
Proof.
  intros H. unfold mean, Rdiv.
  destruct t as [|x t].
  - simpl. rewrite Rinv_0. lra.
  - apply Rmult_le_pos; [exact H|].
    left. apply Rinv_0_lt_compat. apply lt_0_INR. simpl. lia.
Qed.

Lemma MSELoss_nonneg (input target : Tensor) : 0 <= MSELoss input target.
Proof.
  unfold MSELoss. apply mean_nonneg. apply tsum_squares_nonneg.
Qed.

Lemma MSELoss_rows (input target : Tensor) : MSELoss input target = spec_mse input target.
Proof.
  unfold MSELoss, spec_mse, tsub. f_equal.
  revert target. induction input as [|x input IH]; intros [|y target]; try reflexivity.
  simpl. rewrite IH. reflexivity.
Qed.

Lemma q_target_rows (rs d a : R) (rw tm t1 t2 lp : Tensor) :
  tadd (scale rs rw) (tmul (scale_r (rsub 1 tm) d) (tsub (tmin t1 t2) (scale a lp)))
  = spec_q_target rs d a rw tm t1 t2 lp.
Proof.
  unfold spec_q_target, tadd, tmul, tsub, tmin, scale, scale_r, rsub.
  revert tm t1 t2 lp.
  induction rw as [|r rw IH]; intros tm t1 t2 lp.
  - reflexivity.
  - destruct tm as [|x tm]; [reflexivity|].
    destruct t1 as [|y t1]; [reflexivity|].
    destruct t2 as [|z t2]; [reflexivity|].
    destruct lp as [|l lp]; [reflexivity|].
    simpl. rewrite IH. reflexivity.
Qed.

Lemma alpha_loss_rows (la te : R) (lp : Tensor) :
  - mean (scale la (adds lp te)) = spec_alpha_loss la te lp.
Proof.
  unfold spec_alpha_loss, scale, adds. rewrite map_map. reflexivity.
Qed.

Lemma scaled_minus_rows (a : R) (lp q : Tensor) :
  tsub (scale a lp) q = map2 (fun l x => a * l - x) lp q.
Proof.
  unfold tsub, scale. revert q.
  induction lp as [|l lp IH]; intros q; [reflexivity|].
  destruct q as [|x q]; [reflexivity|]. simpl. rewrite IH. reflexivity.
Qed.

Lemma policy_loss_rows (a : R) (lp q1 q2 : Tensor) :
  mean (tsub (scale a lp) (tmin q1 q2)) = spec_policy_loss a lp q1 q2.
Proof.
  unfold spec_policy_loss. rewrite scaled_minus_rows. reflexivity.
Qed.

Lemma reported_policy_loss_rows (lp q1 q2 : Tensor) :
  mean (tsub lp (tmin q1 q2)) = spec_reported_policy_loss lp q1 q2.
Proof. reflexivity. Qed.

Lemma ema_tau_one (t u : Tensor) :
  List.length t = List.length u -> map2 (fun x y => 1 * y + (1 - 1) * x) t u = u.
Proof.
  revert u. induction t as [|x t IH]; intros [|y u] H; simpl in *; try discriminate.
  - reflexivity.
  - rewrite IH by lia. f_equal. ring.
Qed.

Lemma soft_update_tau_one (source target : Params) :
  same_shape target source -> soft_update_from_to source target 1 = source.
Proof.
  unfold soft_update_from_to, same_shape.
  induction 1 as [|t u target source Hlen _ IH]; simpl.
  - reflexivity.
  - rewrite ema_tau_one by exact Hlen. rewrite IH. reflexivity.
Qed.

(** ** Integer arithmetic of [np.prod] *)

Lemma wrap_int64_congr (x y : Z) :
  (x mod 2 ^ 64 = y mod 2 ^ 64)%Z -> wrap_int64 x = wrap_int64 y.
Proof.
  intros H. unfold wrap_int64.
  rewrite <- (Zplus_mod_idemp_l x), <- (Zplus_mod_idemp_l y), H. reflexivity.
Qed.

Lemma wrap_int64_mod (z : Z) : (wrap_int64 z mod 2 ^ 64 = z mod 2 ^ 64)%Z.
Proof.
  unfold wrap_int64. rewrite Zminus_mod_idemp_l. f_equal. lia.
Qed.

Lemma wrap_int64_mul (x y : Z) : wrap_int64 (wrap_int64 x * y) = wrap_int64 (x * y).
Proof.
  apply wrap_int64_congr.
  rewrite <- (Zmult_mod_idemp_l (wrap_int64 x)), wrap_int64_mod, Zmult_mod_idemp_l.
  reflexivity.
Qed.

Lemma wrap_int64_id (z : Z) : int64 z -> wrap_int64 z = z.
Proof.
  unfold int64, wrap_int64. intros H. rewrite Z.mod_small; lia.
Qed.

Lemma np_prod_from (shape : list Z) (acc : Z) :
  fold_left (fun a d => wrap_int64 (a * d)) shape (wrap_int64 acc)
  = wrap_int64 (acc * spec_prod shape).
Proof.
  revert acc. induction shape as [|d shape IH]; intros acc; simpl.
  - rewrite Z.mul_1_r. reflexivity.
  - rewrite wrap_int64_mul, IH. f_equal. ring.
Qed.

(** [np.prod] is the product of the dimensions, taken into [int64] *)
Lemma np_prod_wraps (shape : list Z) : np_prod shape = wrap_int64 (spec_prod shape).
Proof.
  unfold np_prod. change 1%Z with (wrap_int64 1) at 1.
  rewrite np_prod_from. f_equal. lia.
Qed.

(** ** The statistics mapping *)

Lemma od_get_set_same (k : string) (v : StatVal) (d : OrderedDict) :
  od_get k (od_set k v d) = Some v.
Proof.
  induction d as [|[k' v'] d IH]; simpl.
  - rewrite String.eqb_refl. reflexivity.
  - destruct (String.eqb k k') eqn:E; simpl.
    + rewrite String.eqb_refl. reflexivity.
    + rewrite E. exact IH.
Qed.

Lemma od_get_set_other (k k' : string) (v : StatVal) (d : OrderedDict) :
  k <> k' -> od_get k (od_set k' v d) = od_get k d.
Proof.
  intros Hne. apply String.eqb_neq in Hne.
  induction d as [|[k0 v0] d IH]; simpl.
  - rewrite Hne. reflexivity.
  - destruct (String.eqb k' k0) eqn:E; simpl.
    + apply String.eqb_eq in E. subst k0. rewrite Hne. reflexivity.
    + rewrite IH. reflexivity.
Qed.

Lemma od_get_update_other (k : string) (other d : OrderedDict) :
  ~ In k (od_keys other) -> od_get k (od_update d other) = od_get k d.
Proof.
  unfold od_update. revert d.
  induction other as [|[k' v'] other IH]; intros d Hn; simpl in *.
  - reflexivity.
  - rewrite IH by tauto. apply od_get_set_other. intros ->. tauto.
Qed.

(** what an update writes under a key does not depend on the mapping updated *)
Lemma od_get_update_written (k : string) (other d d' : OrderedDict) :
  In k (od_keys other) -> od_get k (od_update d other) = od_get k (od_update d' other).
Proof.
  unfold od_update. revert d d'.
  induction other as [|[k' v'] other IH]; intros d d' Hin; simpl in *.
  - contradiction.
  - destruct (in_dec string_dec k (od_keys other)) as [Hi|Hn].
    + apply IH. exact Hi.
    + destruct Hin as [->|Hi]; [|contradiction].
      fold (od_update (od_set k v' d) other). fold (od_update (od_set k v' d') other).
      rewrite !od_get_update_other by exact Hn.
      rewrite !od_get_set_same. reflexivity.
Qed.

Lemma od_keys_set (k : string) (v : StatVal) (d : OrderedDict) :
  forall x, In x (od_keys d) -> In x (od_keys (od_set k v d)).
Proof.
  induction d as [|[k' v'] d IH]; intros x Hx; simpl in *.
  - contradiction.
  - destruct (String.eqb k k') eqn:E; simpl.
    + apply String.eqb_eq in E. subst. exact Hx.
    + destruct Hx as [->|Hx]; [left; reflexivity|right; apply IH; exact Hx].
Qed.

Lemma od_keys_update (other d : OrderedDict) :
  forall x, In x (od_keys d) -> In x (od_keys (od_update d other)).
Proof.
  unfold od_update. revert d.
  induction other as [|[k' v'] other IH]; intros d x Hx; simpl.
  - exact Hx.
  - apply IH. apply od_keys_set. exact Hx.
Qed.

Lemma od_get_absent (k : string) (d : OrderedDict) :
  ~ In k (od_keys d) -> od_get k d = None.
Proof.
  induction d as [|[k' v'] d IH]; intros Hn; simpl in *.
  - reflexivity.
  - destruct (String.eqb k k') eqn:E.
    + apply String.eqb_eq in E. subst k'. tauto.
    + apply IH. tauto.
Qed.

Lemma od_keys_set_present (k : string) (v : StatVal) (d : OrderedDict) :
  In k (od_keys d) -> od_keys (od_set k v d) = od_keys d.
Proof.
  induction d as [|[k' v'] d IH]; intros Hin; simpl in *.
  - contradiction.
  - destruct (String.eqb k k') eqn:E; simpl.
    + apply String.eqb_eq in E. subst k'. reflexivity.
    + f_equal. apply IH. destruct Hin as [Hin|Hin]; [|exact Hin].
      subst k'. rewrite String.eqb_refl in E. discriminate.
Qed.

Lemma od_keys_set_absent (k : string) (v : StatVal) (d : OrderedDict) :
  ~ In k (od_keys d) -> od_keys (od_set k v d) = od_keys d ++ [k].
Proof.
  induction d as [|[k' v'] d IH]; intros Hn; simpl in *.
  - reflexivity.
  - destruct (String.eqb k k') eqn:E; simpl.
    + apply String.eqb_eq in E. subst k'. tauto.
    + f_equal. apply IH. tauto.
Qed.

(** the keys after an assignment depend on the keys before it only *)
Lemma od_keys_set_congr (k : string) (v v' : StatVal) (d d' : OrderedDict) :
  od_keys d = od_keys d' -> od_keys (od_set k v d) = od_keys (od_set k v' d').
Proof.
  intros E.
  destruct (in_dec string_dec k (od_keys d)) as [Hin|Hn].
  - rewrite !od_keys_set_present; [exact E| rewrite <- E; exact Hin | exact Hin].
  - rewrite !od_keys_set_absent; [rewrite E; reflexivity | rewrite <- E; exact Hn | exact Hn].
Qed.

Lemma od_keys_update_congr (other other' d d' : OrderedDict) :
  od_keys other = od_keys other' -> od_keys d = od_keys d' ->
  od_keys (od_update d other) = od_keys (od_update d' other').
Proof.
  unfold od_update. revert other' d d'.
  induction other as [|[k v] other IH]; intros [|[k' v'] other'] d d' Ho Hd;
    simpl in *; try discriminate.
  - exact Hd.
  - injection Ho as -> Ho. apply IH; [exact Ho|]. apply od_keys_set_congr. exact Hd.
Qed.

Lemma od_keys_update_present (other d : OrderedDict) :
  (forall k, In k (od_keys other) -> In k (od_keys d)) ->
  od_keys (od_update d other) = od_keys d.
Proof.
  unfold od_update. revert d.
  induction other as [|[k v] other IH]; intros d Hsub; simpl in *.
  - reflexivity.
  - rewrite IH.
    + apply od_keys_set_present. apply Hsub. left. reflexivity.
    + intros x Hx. apply od_keys_set. apply Hsub. right. exact Hx.
Qed.

(** every key of an updated mapping was there before or was written *)
Lemma od_keys_update_from (k : string) (other d : OrderedDict) :
  In k (od_keys (od_update d other)) -> In k (od_keys d) \/ In k (od_keys other).
Proof.
  unfold od_update. revert d.
  induction other as [|[k' v'] other IH]; intros d H; simpl in *.
  - left. exact H.
  - destruct (IH _ H) as [H1|H1]; [|right; right; exact H1].
    destruct (in_dec string_dec k' (od_keys d)) as [Hin|Hn].
    + rewrite od_keys_set_present in H1 by exact Hin. left. exact H1.
    + rewrite od_keys_set_absent in H1 by exact Hn.
      apply in_app_or in H1. destruct H1 as [H1|[H1|[]]]; [left; exact H1|].
      right. left. exact H1.
Qed.

(** every key written is a key of the updated mapping *)
Lemma od_keys_update_written (k : string) (other d : OrderedDict) :
  In k (od_keys other) -> In k (od_keys (od_update d other)).
Proof.
  unfold od_update. revert d.
  induction other as [|[k' v'] other IH]; intros d H; simpl in *.
  - contradiction.
  - destruct H as [->|H]; [|apply IH; exact H].
    fold (od_update (od_set k v' d) other). apply od_keys_update.
    destruct (in_dec string_dec k (od_keys d)) as [Hin|Hn].
    + rewrite od_keys_set_present by exact Hin. exact Hin.
    + rewrite od_keys_set_absent by exact Hn. apply in_or_app. right. left. reflexivity.
Qed.

Lemma od_keys_set_NoDup (k : string) (v : StatVal) (d : OrderedDict) :
  NoDup (od_keys d) -> NoDup (od_keys (od_set k v d)).
Proof.
  intros H.
  destruct (in_dec string_dec k (od_keys d)) as [Hin|Hn].
  - rewrite od_keys_set_present by exact Hin. exact H.
  - rewrite od_keys_set_absent by exact Hn.
    apply NoDup_app; [exact H|repeat constructor; intros []|].
    intros x Hx [Hk|[]]. subst x. tauto.
Qed.

Lemma od_keys_update_NoDup (other d : OrderedDict) :
  NoDup (od_keys d) -> NoDup (od_keys (od_update d other)).
Proof.
  unfold od_update. revert d.
  induction other as [|[k v] other IH]; intros d H; simpl.
  - exact H.
  - apply IH. apply od_keys_set_NoDup. exact H.
Qed.

(** a mapping is its keys, in their order, and the value under each *)
Lemma od_extensional (d d' : OrderedDict) :
  od_keys d = od_keys d' -> NoDup (od_keys d) ->
  (forall k, od_get k d = od_get k d') -> d = d'.
Proof.
  revert d'. induction d as [|[k v] d IH]; intros [|[k' v'] d'] Hk Hnd Hget;
    simpl in *; try discriminate.
  - reflexivity.
  - injection Hk as <- Hk. inversion Hnd as [|x l Hnot Hnd']. subst x l.
    pose proof (Hget k) as Hv. rewrite String.eqb_refl in Hv. injection Hv as <-.
    f_equal. apply IH; [exact Hk|exact Hnd'|].
    intros x. destruct (String.eqb x k) eqn:E.
    + apply String.eqb_eq in E. subst x.
      rewrite !od_get_absent; [reflexivity|rewrite <- Hk; exact Hnot|exact Hnot].
    + specialize (Hget x). rewrite E in Hget. exact Hget.
Qed.

(** a recompute over the mapping of an earlier recompute of the same keys
    leaves what it would have built from the empty mapping *)
Lemma od_update_over (earlier entries : OrderedDict) :
  od_keys earlier = od_keys entries ->
  od_update (od_update [] earlier) entries = od_update [] entries.
Proof.
  intros Hk.
  assert (Hsame : od_keys (od_update [] earlier) = od_keys (od_update [] entries)).
  { apply od_keys_update_congr; [exact Hk|reflexivity]. }
  assert (Hkeys : od_keys (od_update (od_update [] earlier) entries)
                  = od_keys (od_update [] earlier)).
  { apply od_keys_update_present. intros k Hin.
    apply od_keys_update_written. rewrite Hk. exact Hin. }
  apply od_extensional.
  - rewrite Hkeys. exact Hsame.
  - rewrite Hkeys. apply od_keys_update_NoDup. constructor.
  - intros k. destruct (in_dec string_dec k (od_keys entries)) as [Hin|Hn].
    + apply od_get_update_written. exact Hin.
    + rewrite (@od_get_update_other k entries (od_update [] earlier) Hn).
      rewrite (@od_get_update_other k entries [] Hn).
      apply od_get_absent. intros H.
      apply od_keys_update_from in H. destruct H as [[]|H].
      apply Hn. rewrite <- Hk. exact H.
Qed.

(** ** The trainer *)

Section Facts.

Variables ObsB ActB Noise Inner Optimizer : Type.
Variable optimizer_step : Optimizer -> Params -> option Params -> Optimizer * Params.
Variable autograd : (Params -> R) -> Params -> Params.
Variable clip_grad_norm_ : option Params -> R -> option Params * R.

Local Abbreviation Trainer := (SACTrainer ObsB ActB Noise Inner Optimizer).
Local Abbreviation train := (train_from_torch (Inner := Inner) optimizer_step autograd clip_grad_norm_).
Local Abbreviation policy_phase := (policy_and_alpha_loss (Inner := Inner) optimizer_step autograd).

(** *** Construction *)

Lemma truthy_nonzero (r : R) : r <> 0 -> truthy (Some r) = true.
Proof. intros H. unfold truthy. destruct (Req_dec_T r 0); [contradiction|reflexivity]. Qed.

Lemma truthy_zero : truthy (Some 0) = false.
Proof. unfold truthy. destruct (Req_dec_T 0 0); [reflexivity|contradiction]. Qed.

(** C10: with automatic entropy tuning, a target entropy that is [None] or
    zero is not kept: the trainer holds minus the product of the dimensions
    of the action space, as [np.prod] computes it in [int64] - which is minus
    the product itself whenever that product is an [int64] value.  A non-zero
    target entropy is kept. *)
Theorem C10_falsy_target_entropy_ignored (a : InitArgs ObsB ActB Noise Inner Optimizer) :
  a_use_automatic_entropy_tuning a = true ->
  Forall int64 (action_space_shape (a_env a)) ->
  let shape := action_space_shape (a_env a) in
  (a_target_entropy a = Some 0 \/ a_target_entropy a = None ->
   target_entropy (__init__ a) = Some (- IZR (wrap_int64 (spec_prod shape)))
   /\ (int64 (spec_prod shape) ->
       target_entropy (__init__ a) = Some (- IZR (spec_prod shape))))
  /\ (forall r, a_target_entropy a = Some r -> r <> 0 ->
      target_entropy (__init__ a) = Some r).
Proof.
  intros Hauto _ shape. split.
  - intros H.
    assert (E : target_entropy (__init__ a) = Some (- IZR (wrap_int64 (spec_prod shape)))).
    { unfold shape. rewrite <- np_prod_wraps.
      destruct H as [H|H]; simpl; rewrite Hauto, H; [rewrite truthy_zero|]; reflexivity. }
    split; [exact E|].
    intros Hfit. rewrite E, (wrap_int64_id Hfit). reflexivity.
  - intros r H Hr. simpl. rewrite Hauto, H, (truthy_nonzero Hr). reflexivity.
Qed.

(** C9: an optimizer passed to the constructor is not stored, the attribute
    it was meant for stays unassigned, and the first training call and the
    snapshot export both raise [AttributeError]. *)
Theorem C9_supplied_optimizer_discarded (a : InitArgs ObsB ActB Noise Inner Optimizer)
  (b : Batch ObsB ActB) (eps eps' : Noise) :
  a_policy_optimizer a <> None \/ a_qf1_optimizer a <> None \/ a_qf2_optimizer a <> None ->
  (a_policy_optimizer a <> None -> policy_optimizer (__init__ a) = None)
  /\ (a_qf1_optimizer a <> None -> qf1_optimizer (__init__ a) = None)
  /\ (a_qf2_optimizer a <> None -> qf2_optimizer (__init__ a) = None)
  /\ fst (train b eps eps' (__init__ a)) = Exc AttributeError
  /\ fst (get_snapshot (__init__ a)) = Exc AttributeError.
Proof.
  intros H.
  destruct a as [e p q1 q2 t1 t2 d rs plr qlr oc tau per ren al auto te po qo1 qo2].
  simpl in H.
  repeat split.
  - simpl. destruct po; [reflexivity|congruence].
  - simpl. destruct qo1; [reflexivity|congruence].
  - simpl. destruct qo2; [reflexivity|congruence].
  - destruct auto, po, qo1, qo2; try (exfalso; destruct H as [H|[H|H]]; congruence); exec;
      try reflexivity;
      unfold truthy; destruct te as [r|]; try destruct (Req_dec_T r 0); exec; reflexivity.
  - destruct po, qo1, qo2; try (exfalso; destruct H as [H|[H|H]]; congruence); exec;
      reflexivity.
Qed.

(** *** A whole call on an initialized trainer *)

Ltac open_initialized s H :=
  destruct s as [e pn q1 q2 t1 t2 tau per al auto te la lag ao ren po qo1 qo2 d rs st n need];
  unfold initialized, optimizers_assigned, entropy_assigned in H;
  exec in H;
  destruct H as ((Hpo & Hq1 & Hq2) & Hent & Hper);
  destruct po as [po|]; [|congruence];
  destruct qo1 as [qo1|]; [|congruence];
  destruct qo2 as [qo2|]; [|congruence];
  apply Z.eqb_neq in Hper;
  clear Hpo Hq1 Hq2;
  destruct auto;
  [ destruct Hent as (Hla & Hte & Hao); [reflexivity|];
    destruct la as [la|]; [|congruence];
    destruct te as [te|]; [|congruence];
    destruct ao as [ao|]; [|congruence];
    clear Hla Hte Hao
  | clear Hent ].

(** runs a call up to the test of the update period, and through it *)
Ltac run_to_period Hper := exec; rewrite Hper; exec.

(** C4: on an initialized trainer the call returns and adds one to the
    counter; the trigger is the counter's value at entry modulo the period.
    When it is zero each target critic's parameters become
    tau*online + (1 - tau)*target of the online critic as stepped by this call
    (with tau = 1 and matching shapes: the online parameters themselves), the
    rest of the target critic being untouched; otherwise both target critics
    are exactly what they were. *)
Theorem C4_target_networks_synchronised (s : Trainer) (b : Batch ObsB ActB)
  (eps eps' : Noise) :
  initialized s ->
  let s' := snd (train b eps eps' s) in
  let n := _n_train_steps_total s in
  let p := target_update_period s in
  fst (train b eps eps' s) = Val tt
  /\ _n_train_steps_total s' = (n + 1)%Z
  /\ ((n mod p)%Z = 0%Z ->
      target_qf1 s' =
        set_q_parameters (target_qf1 s)
          (soft_update_from_to (q_parameters (qf1 s')) (q_parameters (target_qf1 s))
             (soft_target_tau s))
      /\ target_qf2 s' =
           set_q_parameters (target_qf2 s)
             (soft_update_from_to (q_parameters (qf2 s')) (q_parameters (target_qf2 s))
                (soft_target_tau s))
      /\ (soft_target_tau s = 1 ->
          same_shape (q_parameters (target_qf1 s)) (q_parameters (qf1 s')) ->
          same_shape (q_parameters (target_qf2 s)) (q_parameters (qf2 s')) ->
          q_parameters (target_qf1 s') = q_parameters (qf1 s')
          /\ q_parameters (target_qf2 s') = q_parameters (qf2 s')))
  /\ ((n mod p)%Z <> 0%Z ->
      target_qf1 s' = target_qf1 s /\ target_qf2 s' = target_qf2 s).
Proof.
  intros Hinit.
  open_initialized s Hinit;
    run_to_period Hper;
    (destruct (Z.eqb_spec (n mod per) 0) as [Hz|Hz]; exec; destruct need; exec;
     (split; [reflexivity|]); (split; [reflexivity|]);
     (split; [intros Htrig|intros Htrig; try contradiction; split; reflexivity]);
     try contradiction;
     (split; [reflexivity|]); (split; [reflexivity|]);
     intros Htau Hs1 Hs2; exec in Hs1; exec in Hs2; rewrite Htau;
     split; apply soft_update_tau_one; assumption).
Qed.

Local Abbreviation locals := (call_locals (Inner := Inner) optimizer_step autograd clip_grad_norm_).
Local Abbreviation many := (train_many (Inner := Inner) optimizer_step autograd clip_grad_norm_).

Lemma train_keeps_initialized (s : Trainer) (b : Batch ObsB ActB) (eps eps' : Noise) :
  initialized s -> initialized (snd (train b eps eps' s)).
Proof.
  intros Hinit.
  open_initialized s Hinit;
    unfold initialized, optimizers_assigned, entropy_assigned;
    run_to_period Hper;
    (destruct (Z.eqb_spec (n mod per) 0) as [Hz|Hz]; exec; destruct need; exec;
     apply Z.eqb_neq in Hper;
     repeat split; try congruence; try discriminate).
Qed.

Lemma train_clears_flag (s : Trainer) (b : Batch ObsB ActB) (eps eps' : Noise) :
  initialized s -> _need_to_update_eval_statistics (snd (train b eps eps' s)) = false.
Proof.
  intros Hinit.
  open_initialized s Hinit;
    run_to_period Hper;
    (destruct (Z.eqb_spec (n mod per) 0) as [Hz|Hz]; exec; destruct need; exec; reflexivity).
Qed.

Lemma train_skips_statistics (s : Trainer) (b : Batch ObsB ActB) (eps eps' : Noise) :
  initialized s ->
  _need_to_update_eval_statistics s = false ->
  eval_statistics (snd (train b eps eps' s)) = eval_statistics s.
Proof.
  intros Hinit Hneed.
  open_initialized s Hinit;
    exec in Hneed; subst need;
    run_to_period Hper;
    (destruct (Z.eqb_spec (n mod per) 0) as [Hz|Hz]; exec; reflexivity).
Qed.

Lemma train_recomputes_statistics (s : Trainer) (b : Batch ObsB ActB) (eps eps' : Noise) :
  initialized s ->
  _need_to_update_eval_statistics s = true ->
  exists L Q norms s2,
    locals b eps eps' s = (Val (L, Q, norms), s2)
    /\ eval_statistics (snd (train b eps eps' s)) =
         od_update (eval_statistics s)
           (statistics_entries L Q norms (use_automatic_entropy_tuning s)).
Proof.
  intros Hinit Hneed.
  open_initialized s Hinit;
    exec in Hneed; subst need;
    do 4 eexists; (split; [exec; reflexivity|]);
    run_to_period Hper;
    (destruct (Z.eqb_spec (n mod per) 0) as [Hz|Hz]; exec; reflexivity).
Qed.

Lemma train_many_skips (cs : list (Batch ObsB ActB * Noise * Noise)) (s : Trainer) :
  initialized s ->
  _need_to_update_eval_statistics s = false ->
  eval_statistics (many cs s) = eval_statistics s
  /\ _need_to_update_eval_statistics (many cs s) = false.
Proof.
  revert s. induction cs as [|[[b eps] eps'] cs IH]; intros s Hinit Hneed.
  - split; [reflexivity|exact Hneed].
  - change (many ((b, eps, eps') :: cs) s) with (many cs (snd (train b eps eps' s))).
    destruct (IH (snd (train b eps eps' s))) as [E1 E2].
    + apply train_keeps_initialized. exact Hinit.
    + apply train_clears_flag. exact Hinit.
    + split; [|exact E2]. rewrite E1. apply train_skips_statistics; assumption.
Qed.

(** C7: on an initialized trainer, any number N >= 1 of training calls with
    no [end_epoch] between them leaves the statistics of the first call in
    place and the flag cleared; and [end_epoch] followed by one call assigns
    the entries recomputed from that call's locals and clears the flag. *)
Theorem C7_statistics_once_per_epoch (s : Trainer) :
  initialized s ->
  (forall c cs,
     eval_statistics (many (c :: cs) s) = eval_statistics (many [c] s)
     /\ _need_to_update_eval_statistics (many (c :: cs) s) = false)
  /\ (forall epoch b eps eps',
        let s0 := snd (end_epoch epoch s) in
        exists L Q norms s2,
          locals b eps eps' s0 = (Val (L, Q, norms), s2)
          /\ eval_statistics (snd (train b eps eps' s0)) =
               od_update (eval_statistics s)
                 (statistics_entries L Q norms (use_automatic_entropy_tuning s))
          /\ _need_to_update_eval_statistics (snd (train b eps eps' s0)) = false).
Proof.
  intros Hinit. split.
  - intros [[b eps] eps'] cs.
    change (many ((b, eps, eps') :: cs) s) with (many cs (snd (train b eps eps' s))).
    change (many [(b, eps, eps')] s) with (snd (train b eps eps' s)).
    apply train_many_skips.
    + apply train_keeps_initialized. exact Hinit.
    + apply train_clears_flag. exact Hinit.
  - intros epoch b eps eps' s0.
    assert (Hinit0 : initialized s0) by exact Hinit.
    assert (Hneed0 : _need_to_update_eval_statistics s0 = true) by reflexivity.
    destruct (train_recomputes_statistics b eps eps' Hinit0 Hneed0)
      as (L & Q & norms & s2 & E1 & E2).
    exists L, Q, norms, s2. split; [exact E1|]. split; [exact E2|].
    apply train_clears_flag. exact Hinit0.
Qed.

(** *** The statistics of a recompute *)

Lemma od_get_set_other_b (k k' : string) (v : StatVal) (d : OrderedDict) :
  String.eqb k k' = false -> od_get k (od_set k' v d) = od_get k d.
Proof. intros H. apply od_get_set_other. apply String.eqb_neq. exact H. Qed.

Lemma statistics_entries_keys (L : PolicyLocals ActB) (Q : QfLocals) (norms : R * R * R)
  (auto : bool) :
  od_keys (statistics_entries L Q norms auto) = statistics_keys.
Proof. destruct norms as [[n1 n2] n3]. reflexivity. Qed.

Lemma train_statistics_keys (s : Trainer) (b : Batch ObsB ActB) (eps eps' : Noise) :
  initialized s ->
  (forall k, In k (od_keys (eval_statistics s)) -> In k statistics_keys) ->
  forall k, In k (od_keys (eval_statistics (snd (train b eps eps' s)))) ->
            In k statistics_keys.
Proof.
  intros Hinit Hold k Hk.
  destruct (_need_to_update_eval_statistics s) eqn:Hneed.
  - destruct (train_recomputes_statistics b eps eps' Hinit Hneed)
      as (L & Q & norms & s2 & _ & E).
    rewrite E in Hk. clear E.
    rewrite <- (statistics_entries_keys L Q norms (use_automatic_entropy_tuning s)).
    rewrite <- (statistics_entries_keys L Q norms (use_automatic_entropy_tuning s)) in Hold.
    revert Hk Hold. generalize (statistics_entries L Q norms (use_automatic_entropy_tuning s)).
    generalize (eval_statistics s).
    intros d other. unfold od_update.
    assert (G : forall (l : OrderedDict) d0,
               In k (od_keys (fold_left (fun acc kv => od_set (fst kv) (snd kv) acc) l d0)) ->
               In k (od_keys d0) \/ In k (od_keys l)).
    { induction l as [|[k1 v1] l IH]; intros d0 H; simpl in *.
      - left. exact H.
      - destruct (IH _ H) as [H1|H1]; [|right; right; exact H1].
        clear IH H. induction d0 as [|[k0 v0] d0 IH0]; simpl in *.
        + destruct H1 as [H1|[]]. right. left. exact H1.
        + destruct (String.eqb k1 k0) eqn:E; simpl in H1.
          * apply String.eqb_eq in E. subst k0.
            destruct H1 as [H1|H1]; [left; left; exact H1|left; right; exact H1].
          * destruct H1 as [H1|H1]; [left; left; exact H1|].
            destruct (IH0 H1) as [H2|H2]; [left; right; exact H2|right; exact H2]. }
    intros Hk Hold. destruct (G _ _ Hk) as [H|H]; [apply Hold; exact H|exact H].
  - rewrite (train_skips_statistics b eps eps' Hinit Hneed) in Hk. apply Hold. exact Hk.
Qed.

Lemma driven_initialized (s : Trainer) :
  driven optimizer_step autograd clip_grad_norm_ s -> initialized s.
Proof.
  induction 1 as [a Ha|s b eps eps' _ IH|s epoch _ IH].
  - exact Ha.
  - apply train_keeps_initialized. exact IH.
  - exact IH.
Qed.

Lemma driven_statistics_keys (s : Trainer) :
  driven optimizer_step autograd clip_grad_norm_ s ->
  forall k, In k (od_keys (eval_statistics s)) -> In k statistics_keys.
Proof.
  induction 1 as [a Ha|s b eps eps' Hd IH|s epoch _ IH].
  - intros k [].
  - apply train_statistics_keys; [apply driven_initialized; exact Hd|exact IH].
  - exact IH.
Qed.

(** the mapping of a driven trainer is empty, or what one recompute builds
    from the empty mapping *)
Lemma driven_statistics_built (s : Trainer) :
  driven optimizer_step autograd clip_grad_norm_ s ->
  eval_statistics s = []
  \/ exists earlier, od_keys earlier = statistics_keys
                     /\ eval_statistics s = od_update [] earlier.
Proof.
  induction 1 as [a Ha|s b eps eps' Hd IH|s epoch _ IH].
  - left. reflexivity.
  - pose proof (driven_initialized Hd) as Hinit.
    destruct (_need_to_update_eval_statistics s) eqn:Hneed.
    + destruct (train_recomputes_statistics b eps eps' Hinit Hneed)
        as (L & Q & norms & s2 & _ & E).
      right. exists (statistics_entries L Q norms (use_automatic_entropy_tuning s)).
      split; [apply statistics_entries_keys|].
      rewrite E. destruct IH as [E0|(earlier & Hk & E0)]; rewrite E0; [reflexivity|].
      apply od_update_over. rewrite Hk, statistics_entries_keys. reflexivity.
    + rewrite (train_skips_statistics b eps eps' Hinit Hneed). exact IH.
  - exact IH.
Qed.

(** C6: on a trainer driven from its construction by training calls and
    [end_epoch], a recompute leaves the mapping that its own entries build
    from the empty mapping: every key is one this recompute has written, under
    the value it has written, and nothing of an earlier recompute is left.
    The code gets there by assigning into the one mapping created at
    construction, whose keys are those every recompute writes. *)
Theorem C6_statistics_replaced_on_recompute (s : Trainer) (b : Batch ObsB ActB)
  (eps eps' : Noise) :
  driven optimizer_step autograd clip_grad_norm_ s ->
  _need_to_update_eval_statistics s = true ->
  exists L Q norms s2,
    locals b eps eps' s = (Val (L, Q, norms), s2)
    /\ let entries := statistics_entries L Q norms (use_automatic_entropy_tuning s) in
       let s' := snd (train b eps eps' s) in
       eval_statistics s' = od_update [] entries
       /\ get_diagnostics s' = od_update [] entries
       /\ (forall k, In k (od_keys (eval_statistics s')) -> In k (od_keys entries))
       /\ (forall k, od_get k (eval_statistics s') = od_get k (od_update [] entries))
       /\ _need_to_update_eval_statistics s' = false.
Proof.
  intros Hd Hneed.
  pose proof (driven_initialized Hd) as Hinit.
  destruct (train_recomputes_statistics b eps eps' Hinit Hneed)
    as (L & Q & norms & s2 & E1 & E2).
  exists L, Q, norms, s2. split; [exact E1|].
  intros entries s'.
  assert (E : eval_statistics s' = od_update [] entries).
  { subst s'. rewrite E2. fold entries.
    destruct (driven_statistics_built Hd) as [E0|(earlier & Hk & E0)]; rewrite E0;
      [reflexivity|].
    apply od_update_over. rewrite Hk. unfold entries.
    rewrite statistics_entries_keys. reflexivity. }
  split; [exact E|]. split; [exact E|]. split.
  - intros k Hk. rewrite E in Hk.
    apply od_keys_update_from in Hk. destruct Hk as [[]|Hk]. exact Hk.
  - split; [intros k; rewrite E; reflexivity|].
    apply train_clears_flag. exact Hinit.
Qed.

Ltac od_lookup :=
  repeat (rewrite od_get_set_other_b by reflexivity); rewrite od_get_set_same.

(** C5: the loss whose gradient steps the policy is
    mean(alpha*log_pi - min(qf1(obs, a), qf2(obs, a))) over the trainer's own
    critics [qf1] and [qf2], at the action [a] and log-probability the policy
    gives on the observations; the value a recompute stores under
    "Policy Loss" is mean(log_pi - min(qf1(obs, a), qf2(obs, a))), without
    the factor alpha. *)
Theorem C5_policy_loss_optimized_and_reported (s : Trainer) (b : Batch ObsB ActB)
  (eps eps' : Noise) :
  initialized s ->
  exists L Q norms s2 po,
    locals b eps eps' s = (Val (L, Q, norms), s2)
    /\ policy_optimizer s = Some po
    /\ let out := fun theta => p_forward (policy s) theta (observations b) true true eps in
       let q1 := fun theta =>
         q_forward (qf1 s) (q_parameters (qf1 s)) (observations b) (po_action (out theta)) in
       let q2 := fun theta =>
         q_forward (qf2 s) (q_parameters (qf2 s)) (observations b) (po_action (out theta)) in
       let theta0 := p_parameters (policy s) in
       let s1 := snd (policy_phase b eps s) in
       let objective := fun theta => fn (policy_loss L) (with_leaf (leaf_params s1) LPolicy theta) in
       let s' := snd (train b eps eps' s) in
       data (q_new_actions L) = tmin (q1 theta0) (q2 theta0)
       /\ data (policy_loss L) =
            spec_policy_loss (data (alpha_v L)) (po_log_prob (out theta0)) (q1 theta0) (q2 theta0)
       /\ (forall theta,
             objective theta =
               spec_policy_loss (data (alpha_v L)) (po_log_prob (out theta)) (q1 theta) (q2 theta))
       /\ p_parameters (policy s') =
            snd (optimizer_step po theta0
                   (fst (clip_grad_norm_ (Some (autograd objective theta0)) 100)))
       /\ (_need_to_update_eval_statistics s = true ->
           od_get "Policy Loss" (eval_statistics s') =
             Some (Num (spec_reported_policy_loss (po_log_prob (out theta0))
                          (q1 theta0) (q2 theta0)))).
Proof.
  intros Hinit.
  open_initialized s Hinit;
    do 5 eexists; (split; [exec; reflexivity|]); (split; [exec; reflexivity|]);
    run_to_period Hper;
    (destruct (Z.eqb_spec (n mod per) 0) as [Hz|Hz]; exec;
     (split; [reflexivity|]);
     (split; [apply policy_loss_rows|]);
     (split; [intros theta; apply policy_loss_rows|]);
     (split; [destruct need; reflexivity|]);
     intros Hneed; subst need; exec; od_lookup; reflexivity).
Qed.

(** C8: with automatic entropy tuning off, the call returns normally, the
    entropy coefficient it uses is the fixed constant (a constant of the
    graph), nothing of the entropy controller changes (coefficient, its
    logarithm, gradient buffer, optimizer), and a recompute stores [NaN]
    under "Alpha Loss" and the constant under "Alpha". *)
Theorem C8_fixed_alpha_reports_nan (s : Trainer) (b : Batch ObsB ActB)
  (eps eps' : Noise) :
  initialized s ->
  use_automatic_entropy_tuning s = false ->
  exists L Q norms s2,
    locals b eps eps' s = (Val (L, Q, norms), s2)
    /\ alpha_v L = const (alpha s)
    /\ let s' := snd (train b eps eps' s) in
       fst (train b eps eps' s) = Val tt
       /\ alpha s' = alpha s
       /\ log_alpha s' = log_alpha s
       /\ log_alpha_grad s' = log_alpha_grad s
       /\ alpha_optimizer s' = alpha_optimizer s
       /\ (_need_to_update_eval_statistics s = true ->
           od_get "Alpha Loss" (eval_statistics s') = Some NaN
           /\ od_get "Alpha" (eval_statistics s') = Some (Num (alpha s))).
Proof.
  intros Hinit Hauto.
  open_initialized s Hinit; exec in Hauto; [discriminate|].
  do 4 eexists. split; [exec; reflexivity|]. split; [exec; reflexivity|].
  run_to_period Hper.
  destruct (Z.eqb_spec (n mod per) 0) as [Hz|Hz]; exec;
    (repeat (split; [destruct need; reflexivity|]));
    intros Hneed; subst need; exec; (split; od_lookup; reflexivity).
Qed.

(** *** The critic losses *)

(** C2: in a call on an initialized trainer, [q_target] is, row by row,
    reward_scale*reward + (1 - terminal)*discount*(min of the two target
    critics at the action the policy samples on the next observations -
    alpha*log-probability of that action), with the policy and the target
    critics as they are at entry and with alpha the coefficient of this call.
    Both critic losses are the mean squared error of the critic's prediction
    on the batch's observations and actions against that one value, taken as
    a constant: as functions of the leaves they depend on their own critic
    only.  Both are non-negative, and they are the losses on whose gradients
    the two critics are stepped. *)
Theorem C2_q_target_shared_detached (s : Trainer) (b : Batch ObsB ActB)
  (eps eps' : Noise) :
  initialized s ->
  exists L Q norms s2 qo1 qo2,
    locals b eps eps' s = (Val (L, Q, norms), s2)
    /\ qf1_optimizer s = Some qo1
    /\ qf2_optimizer s = Some qo2
    /\ let s' := snd (train b eps eps' s) in
       let a := data (alpha_v L) in
       let out := p_forward (policy s) (p_parameters (policy s))
                    (next_observations b) true true eps' in
       let target :=
         spec_q_target (reward_scale s) (discount s) a (rewards b) (terminals b)
           (q_forward (target_qf1 s) (q_parameters (target_qf1 s))
              (next_observations b) (po_action out))
           (q_forward (target_qf2 s) (q_parameters (target_qf2 s))
              (next_observations b) (po_action out))
           (po_log_prob out) in
       let phi1 := q_parameters (qf1 s) in
       let phi2 := q_parameters (qf2 s) in
       let predict1 := fun phi => q_forward (qf1 s) phi (observations b) (actions b) in
       let predict2 := fun phi => q_forward (qf2 s) phi (observations b) (actions b) in
       let qf1_objective := fun phi => MSELoss (predict1 phi) (data (q_target Q)) in
       let qf2_objective := fun phi => MSELoss (predict2 phi) (data (q_target Q)) in
       (use_automatic_entropy_tuning s = true ->
        exists la', log_alpha s' = Some la' /\ a = exp la')
       /\ (use_automatic_entropy_tuning s = false -> a = alpha s)
       /\ data (q_target Q) = target
       /\ data (qf1_loss Q) = spec_mse (predict1 phi1) target
       /\ data (qf2_loss Q) = spec_mse (predict2 phi2) target
       /\ (forall e : Leaves, fn (qf1_loss Q) e = spec_mse (predict1 (e LQf1)) target)
       /\ (forall e : Leaves, fn (qf2_loss Q) e = spec_mse (predict2 (e LQf2)) target)
       /\ (forall phi, qf1_objective phi = spec_mse (predict1 phi) target)
       /\ (forall phi, qf2_objective phi = spec_mse (predict2 phi) target)
       /\ graph (qf1_loss Q) = [LQf1]
       /\ graph (qf2_loss Q) = [LQf2]
       /\ 0 <= data (qf1_loss Q)
       /\ 0 <= data (qf2_loss Q)
       /\ q_parameters (qf1 s') =
            snd (optimizer_step qo1 phi1
                   (fst (clip_grad_norm_ (Some (autograd qf1_objective phi1)) 100)))
       /\ q_parameters (qf2 s') =
            snd (optimizer_step qo2 phi2
                   (fst (clip_grad_norm_ (Some (autograd qf2_objective phi2)) 100))).
Proof.
  intros Hinit.
  open_initialized s Hinit;
    do 6 eexists; (split; [exec; reflexivity|]); do 2 (split; [exec; reflexivity|]);
    run_to_period Hper;
    (destruct (Z.eqb_spec (n mod per) 0) as [Hz|Hz]; exec;
     (split; [intros Ha; try discriminate;
              try (eexists; split; [destruct need; reflexivity|reflexivity])|]);
     (split; [intros Ha; try discriminate; try reflexivity|]);
     (split; [apply q_target_rows|]);
     do 2 (split; [rewrite q_target_rows; apply MSELoss_rows|]);
     do 2 (split; [intros e0; rewrite q_target_rows; apply MSELoss_rows|]);
     do 2 (split; [intros phi; rewrite q_target_rows; apply MSELoss_rows|]);
     do 2 (split; [reflexivity|]);
     do 2 (split; [apply MSELoss_nonneg|]);
     (split; destruct need; reflexivity)).
Qed.

(** *** The entropy coefficient *)

Local Abbreviation policy_update := (update_policy (Inner := Inner) optimizer_step autograd clip_grad_norm_).

(** C3 (as the code has it): with automatic entropy tuning the call computes
    alpha_loss = -mean(log_alpha * (log_pi + target_entropy)) with the second
    factor a constant, steps [log_alpha] exactly once, by its own optimizer
    and on the gradient of that loss alone (the buffer is cleared first), and
    uses alpha = exp(log_alpha) of the stepped value, which is positive.
    That alpha is not detached: its graph reaches [log_alpha], and the
    backward pass of the policy loss adds the policy loss's gradient to
    [log_alpha]'s buffer, which is what the buffer holds when the call
    returns; the value of [log_alpha] is not touched again. *)
Theorem C3_entropy_coefficient_update (s : Trainer) (b : Batch ObsB ActB)
  (eps eps' : Noise) :
  initialized s ->
  use_automatic_entropy_tuning s = true ->
  exists L Q norms s2 la te ao,
    locals b eps eps' s = (Val (L, Q, norms), s2)
    /\ log_alpha s = Some la /\ target_entropy s = Some te /\ alpha_optimizer s = Some ao
    /\ let out := p_forward (policy s) (p_parameters (policy s))
                    (observations b) true true eps in
       let log_pi0 := po_log_prob out in
       let q1 := q_forward (qf1 s) (q_parameters (qf1 s)) (observations b) (po_action out) in
       let q2 := q_forward (qf2 s) (q_parameters (qf2 s)) (observations b) (po_action out) in
       let objective := fun p => fn (alpha_loss L) (with_leaf (leaf_params s) LLogAlpha p) in
       let stepped := optimizer_step ao [[la]] (Some (autograd objective [[la]])) in
       let s1 := snd (policy_phase b eps s) in
       let leak := fun p => fn (policy_loss L) (with_leaf (leaf_params s1) LLogAlpha p) in
       let s' := snd (train b eps eps' s) in
       data (alpha_loss L) = spec_alpha_loss la te log_pi0
       /\ (forall e, fn (alpha_loss L) e = spec_alpha_loss (scalar_of (e LLogAlpha)) te log_pi0)
       /\ graph (alpha_loss L) = [LLogAlpha]
       /\ log_alpha s' = Some (scalar_of (snd stepped))
       /\ alpha_optimizer s' = Some (fst stepped)
       /\ data (alpha_v L) = exp (scalar_of (snd stepped))
       /\ 0 < data (alpha_v L)
       /\ graph (alpha_v L) = [LLogAlpha]
       /\ (forall e, fn (alpha_v L) e = exp (scalar_of (e LLogAlpha)))
       /\ (forall p, leak p = spec_policy_loss (exp (scalar_of p)) log_pi0 q1 q2)
       /\ log_alpha_grad s' =
            Some (padd (autograd objective [[la]])
                       (autograd leak [[scalar_of (snd stepped)]])).
Proof.
  intros Hinit Hauto.
  open_initialized s Hinit; exec in Hauto; [|discriminate].
  do 7 eexists. split; [exec; reflexivity|]. do 3 (split; [exec; reflexivity|]).
  run_to_period Hper.
  destruct (Z.eqb_spec (n mod per) 0) as [Hz|Hz]; exec;
    (split; [apply alpha_loss_rows|]);
    (split; [intros e0; apply alpha_loss_rows|]);
    (split; [reflexivity|]);
    (split; [destruct need; reflexivity|]);
    (split; [destruct need; reflexivity|]);
    (split; [reflexivity|]);
    (split; [apply exp_pos|]);
    (split; [reflexivity|]);
    (split; [reflexivity|]);
    (split; [intros p; apply policy_loss_rows|]);
    destruct need; reflexivity.
Qed.

(** *** The order of a call *)

(** C1 (as the code has it): a call first updates the entropy coefficient,
    leaving policy and critics as they were; it then builds the policy loss
    on the critics' parameters at entry, and computes [q_target] and both
    critic losses from the policy's parameters at entry - before any network
    is stepped.  Only then come the policy's backward pass and step, after
    which the critics still hold their parameters, and last the two critics'
    backward passes and steps, on the losses built before the policy moved. *)
Theorem C1_order_of_a_call (s : Trainer) (b : Batch ObsB ActB) (eps eps' : Noise) :
  initialized s ->
  exists L Q norms s2 po qo1 qo2,
    locals b eps eps' s = (Val (L, Q, norms), s2)
    /\ policy_optimizer s = Some po
    /\ qf1_optimizer s = Some qo1
    /\ qf2_optimizer s = Some qo2
    /\ let s1 := snd (policy_phase b eps s) in
       let sp := snd (policy_update (policy_loss L) s1) in
       let s' := snd (train b eps eps' s) in
       let a := data (alpha_v L) in
       let theta0 := p_parameters (policy s) in
       let phi1 := q_parameters (qf1 s) in
       let phi2 := q_parameters (qf2 s) in
       let out := fun theta => p_forward (policy s) theta (observations b) true true eps in
       let policy_objective :=
         fun theta => fn (policy_loss L) (with_leaf (leaf_params s1) LPolicy theta) in
       let qf1_objective :=
         fun phi => MSELoss (q_forward (qf1 s) phi (observations b) (actions b))
                      (data (q_target Q)) in
       let qf2_objective :=
         fun phi => MSELoss (q_forward (qf2 s) phi (observations b) (actions b))
                      (data (q_target Q)) in
       policy s1 = policy s /\ qf1 s1 = qf1 s /\ qf2 s1 = qf2 s
       /\ log_alpha s' = log_alpha s1
       /\ (use_automatic_entropy_tuning s = true ->
           exists la', log_alpha s1 = Some la' /\ a = exp la')
       /\ (use_automatic_entropy_tuning s = false -> a = alpha s)
       /\ (forall theta,
             policy_objective theta =
               spec_policy_loss a (po_log_prob (out theta))
                 (q_forward (qf1 s) phi1 (observations b) (po_action (out theta)))
                 (q_forward (qf2 s) phi2 (observations b) (po_action (out theta))))
       /\ data (q_target Q) = bootstrap_target s b eps' a theta0
       /\ p_parameters (policy sp) =
            snd (optimizer_step po theta0
                   (fst (clip_grad_norm_ (Some (autograd policy_objective theta0)) 100)))
       /\ q_parameters (qf1 sp) = phi1
       /\ q_parameters (qf2 sp) = phi2
       /\ p_parameters (policy s') = p_parameters (policy sp)
       /\ q_parameters (qf1 s') =
            snd (optimizer_step qo1 phi1
                   (fst (clip_grad_norm_ (Some (autograd qf1_objective phi1)) 100)))
       /\ q_parameters (qf2 s') =
            snd (optimizer_step qo2 phi2
                   (fst (clip_grad_norm_ (Some (autograd qf2_objective phi2)) 100))).
Proof.
  intros Hinit.
  open_initialized s Hinit;
    do 7 eexists; (split; [exec; reflexivity|]); do 3 (split; [exec; reflexivity|]);
    run_to_period Hper;
    (destruct (Z.eqb_spec (n mod per) 0) as [Hz|Hz]; exec;
     do 3 (split; [reflexivity|]);
     (split; [destruct need; reflexivity|]);
     (split; [intros Ha; try discriminate; try (eexists; split; reflexivity)|]);
     (split; [intros Ha; try discriminate; try reflexivity|]);
     (split; [intros theta; apply policy_loss_rows|]);
     (split; [reflexivity|]);
     do 3 (split; [reflexivity|]);
     (split; [destruct need; reflexivity|]);
     (split; [destruct need; reflexivity|]);
     destruct need; reflexivity).
Qed.

(** *** What no call changes *)

Local Abbreviation Method := (M ObsB ActB Noise Inner Optimizer).

Lemma keeps_ret (A : Type) (a : A) : keeps_fixed (ret a : Method A).
Proof. intros s. reflexivity. Qed.

Lemma keeps_gets (A : Type) (f : Trainer -> A) : keeps_fixed (gets f).
Proof. intros s. reflexivity. Qed.

Lemma keeps_raise (A : Type) (e : PyExn) : keeps_fixed (raise e : Method A).
Proof. intros s. reflexivity. Qed.

Lemma keeps_attr (A : Type) (f : Trainer -> option A) : keeps_fixed (attr f).
Proof. intros s. unfold attr. destruct (f s); reflexivity. Qed.

Lemma keeps_bind (A B : Type) (m : Method A) (k : A -> Method B) :
  keeps_fixed m -> (forall a, keeps_fixed (k a)) -> keeps_fixed (bind m k).
Proof.
  intros Hm Hk s. unfold bind.
  specialize (Hm s). destruct (m s) as [[a|e] s1]; simpl in Hm.
  - rewrite Hk. exact Hm.
  - exact Hm.
Qed.

Lemma keeps_modify (f : Trainer -> Trainer) :
  (forall s, fixed_part (f s) = fixed_part s) -> keeps_fixed (modify f).
Proof. intros H s. apply H. Qed.

Lemma fixed_set_leaf_grad (s : Trainer) (l : Leaf) (g : option Params) :
  fixed_part (set_leaf_grad s l g) = fixed_part s.
Proof. destruct l; reflexivity. Qed.

Lemma fixed_set_leaf_params (s : Trainer) (l : Leaf) (p : Params) :
  fixed_part (set_leaf_params s l p) = fixed_part s.
Proof. destruct l; reflexivity. Qed.

Lemma keeps_backward (loss : Var R) : keeps_fixed (backward autograd loss : Method unit).
Proof.
  intros s. unfold backward. simpl snd.
  generalize (leaf_params s) as e. generalize (leaves_of (graph loss)) as ls.
  intros ls. revert s.
  induction ls as [|l ls IH]; intros s e; simpl.
  - reflexivity.
  - rewrite IH. apply fixed_set_leaf_grad.
Qed.

Lemma keeps_zero_grad (opt : Trainer -> option Optimizer) (l : Leaf) :
  keeps_fixed (zero_grad opt l).
Proof.
  unfold zero_grad. apply keeps_bind; [apply keeps_attr|intros _].
  apply keeps_modify. intros s. apply fixed_set_leaf_grad.
Qed.

Lemma keeps_clip (l : Leaf) (c : R) : keeps_fixed (clip clip_grad_norm_ l c : Method R).
Proof.
  unfold clip. apply keeps_bind; [apply keeps_gets|intros g].
  apply keeps_bind; [|intros _; apply keeps_ret].
  apply keeps_modify. intros s. apply fixed_set_leaf_grad.
Qed.

(** a step replaces an optimizer that was there: which optimizers are
    assigned does not change *)
Ltac keeps_step :=
  intros s;
  destruct s as [e pn q1 q2 t1 t2 tau per al auto te la lag ao ren po qo1 qo2 d rs st n need];
  destruct ao, po, qo1, qo2; reflexivity.

Lemma keeps_step_alpha :
  keeps_fixed (step optimizer_step (@alpha_optimizer ObsB ActB Noise Inner Optimizer)
                 (@set_alpha_optimizer ObsB ActB Noise Inner Optimizer) LLogAlpha).
Proof. keeps_step. Qed.

Lemma keeps_step_policy :
  keeps_fixed (step optimizer_step (@policy_optimizer ObsB ActB Noise Inner Optimizer)
                 (@set_policy_optimizer ObsB ActB Noise Inner Optimizer) LPolicy).
Proof. keeps_step. Qed.

Lemma keeps_step_qf1 :
  keeps_fixed (step optimizer_step (@qf1_optimizer ObsB ActB Noise Inner Optimizer)
                 (@set_qf1_optimizer ObsB ActB Noise Inner Optimizer) LQf1).
Proof. keeps_step. Qed.

Lemma keeps_step_qf2 :
  keeps_fixed (step optimizer_step (@qf2_optimizer ObsB ActB Noise Inner Optimizer)
                 (@set_qf2_optimizer ObsB ActB Noise Inner Optimizer) LQf2).
Proof. keeps_step. Qed.

Ltac keeps_core :=
  repeat lazymatch goal with
    | |- keeps_fixed (bind _ _) => apply keeps_bind; [|intros ?]
    | |- keeps_fixed (ret _) => apply keeps_ret
    | |- keeps_fixed (gets _) => apply keeps_gets
    | |- keeps_fixed (raise _) => apply keeps_raise
    | |- keeps_fixed (attr _) => apply keeps_attr
    | |- keeps_fixed (backward _ _) => apply keeps_backward
    | |- keeps_fixed (zero_grad _ _) => apply keeps_zero_grad
    | |- keeps_fixed (clip _ _ _) => apply keeps_clip
    | |- keeps_fixed (step _ _ _ LLogAlpha) => apply keeps_step_alpha
    | |- keeps_fixed (step _ _ _ LPolicy) => apply keeps_step_policy
    | |- keeps_fixed (step _ _ _ LQf1) => apply keeps_step_qf1
    | |- keeps_fixed (step _ _ _ LQf2) => apply keeps_step_qf2
    | |- keeps_fixed (modify _) =>
        apply keeps_modify; intros; first [apply fixed_set_leaf_params | reflexivity]
    | |- keeps_fixed (if ?c then _ else _) => destruct c
    end.

Lemma keeps_call_policy (o : ObsB) (eps : Noise) :
  keeps_fixed (call_policy o eps : Method (Var (PolicyOut ActB))).
Proof. unfold call_policy. keeps_core. Qed.

Lemma keeps_call_qf (which : Trainer -> QNet ObsB ActB Inner) (l : Leaf) (o : ObsB)
  (a : Var ActB) :
  keeps_fixed (call_qf which l o a : Method (Var Tensor)).
Proof. unfold call_qf. keeps_core. Qed.

Ltac keeps_calls :=
  repeat lazymatch goal with
    | |- keeps_fixed (bind _ _) => apply keeps_bind; [|intros ?]
    | |- keeps_fixed (call_policy _ _) => apply keeps_call_policy
    | |- keeps_fixed (call_qf _ _ _ _) => apply keeps_call_qf
    | |- keeps_fixed (if ?c then _ else _) => destruct c
    | |- _ => progress keeps_core
    end.

Lemma keeps_policy_phase (b : Batch ObsB ActB) (eps : Noise) :
  keeps_fixed (policy_phase b eps).
Proof. unfold policy_and_alpha_loss. keeps_calls. Qed.

Lemma keeps_qf_loss (b : Batch ObsB ActB) (eps' : Noise) (a : Var R) :
  keeps_fixed (qf_loss b eps' a : Method QfLocals).
Proof. unfold qf_loss. keeps_calls. Qed.

Lemma keeps_update_networks (pl l1 l2 : Var R) :
  keeps_fixed (update_networks optimizer_step autograd clip_grad_norm_ pl l1 l2
               : Method (R * R * R)).
Proof. unfold update_networks, update_policy, update_qf1, update_qf2. keeps_core. Qed.

Lemma keeps_soft_updates : keeps_fixed (@soft_updates ObsB ActB Noise Inner Optimizer).
Proof. unfold soft_updates, py_mod. keeps_core. Qed.

Lemma keeps_stat_set (k : string) (v : StatVal) : keeps_fixed (stat_set k v : Method unit).
Proof. intros s. reflexivity. Qed.

Lemma keeps_stat_update (d : OrderedDict) : keeps_fixed (stat_update d : Method unit).
Proof. intros s. reflexivity. Qed.

Lemma keeps_save_statistics (L : PolicyLocals ActB) (Q : QfLocals) (norms : R * R * R) :
  keeps_fixed (save_statistics L Q norms : Method unit).
Proof.
  destruct norms as [[n1 n2] n3]. unfold save_statistics.
  apply keeps_bind; [apply keeps_gets|intros need].
  destruct need; [|apply keeps_ret].
  repeat lazymatch goal with
    | |- keeps_fixed (bind _ _) => apply keeps_bind; [|intros ?]
    | |- keeps_fixed (stat_set _ _) => apply keeps_stat_set
    | |- keeps_fixed (stat_update _) => apply keeps_stat_update
    | |- keeps_fixed (gets _) => apply keeps_gets
    | |- keeps_fixed (modify _) => apply keeps_modify; intros; reflexivity
    end.
Qed.

Lemma keeps_train (b : Batch ObsB ActB) (eps eps' : Noise) : keeps_fixed (train b eps eps').
Proof.
  unfold train_from_torch.
  apply keeps_bind; [apply keeps_policy_phase|intros L].
  apply keeps_bind; [apply keeps_qf_loss|intros Q].
  apply keeps_bind; [apply keeps_update_networks|intros norms].
  apply keeps_bind; [apply keeps_soft_updates|intros _].
  apply keeps_bind; [apply keeps_save_statistics|intros _].
  apply keeps_modify. intros s. reflexivity.
Qed.

Lemma many_keeps_fixed (calls : list (Batch ObsB ActB * Noise * Noise)) (s : Trainer) :
  fixed_part (many calls s) = fixed_part s.
Proof.
  revert s. induction calls as [|[[b eps] eps'] calls IH]; intros s.
  - reflexivity.
  - change (many ((b, eps, eps') :: calls) s) with (many calls (snd (train b eps eps' s))).
    rewrite IH. apply keeps_train.
Qed.

(** X4: whether it returns or raises, a training call leaves in place every
    hyperparameter taken at construction, the forward function and the
    attribute [module] of each of the five networks, and which optimizer
    attributes are assigned; so does a whole sequence of calls, and so does
    [end_epoch]. *)
Theorem X4_calls_keep_configuration (s : Trainer) :
  (forall b eps eps', fixed_part (snd (train b eps eps' s)) = fixed_part s)
  /\ (forall calls, fixed_part (many calls s) = fixed_part s)
  /\ (forall epoch, fixed_part (snd (end_epoch epoch s)) = fixed_part s).
Proof.
  split; [intros b eps eps'; apply keeps_train|]. split; [|reflexivity].
  intros calls. apply many_keeps_fixed.
Qed.

(** *** How a call ends *)

Ltac open_trainer s :=
  destruct s as [e pn q1 q2 t1 t2 tau per al auto te la lag ao ren po qo1 qo2 d rs st n need].

Lemma train_returns (s : Trainer) (b : Batch ObsB ActB) (eps eps' : Noise) :
  initialized s -> fst (train b eps eps' s) = Val tt.
Proof.
  intros Hinit.
  open_initialized s Hinit;
    run_to_period Hper;
    (destruct (Z.eqb_spec (n mod per) 0) as [Hz|Hz]; exec; destruct need; reflexivity).
Qed.

Lemma train_raises_without_entropy_attribute (s : Trainer) (b : Batch ObsB ActB)
  (eps eps' : Noise) :
  ~ entropy_assigned s -> fst (train b eps eps' s) = Exc AttributeError.
Proof.
  intros H. open_trainer s. unfold entropy_assigned in H. exec in H.
  destruct auto; [|exfalso; apply H; discriminate].
  destruct la as [la|]; [|reflexivity].
  destruct te as [te|]; [|reflexivity].
  destruct ao as [ao|]; [|reflexivity].
  exfalso. apply H. intros _. repeat split; discriminate.
Qed.

Lemma train_raises_without_optimizer (s : Trainer) (b : Batch ObsB ActB)
  (eps eps' : Noise) :
  entropy_assigned s -> ~ optimizers_assigned s ->
  fst (train b eps eps' s) = Exc AttributeError.
Proof.
  intros He H. open_trainer s. unfold entropy_assigned, optimizers_assigned in *.
  exec in He. exec in H.
  assert (Hcase : po = None \/ (po <> None /\ qo1 = None)
                  \/ (po <> None /\ qo1 <> None /\ qo2 = None)).
  { destruct po, qo1, qo2; try (right; right; repeat split; congruence);
      try (right; left; split; congruence); try (left; reflexivity).
    exfalso. apply H. repeat split; discriminate. }
  clear H.
  destruct auto.
  - destruct He as (Hla & Hte & Hao); [reflexivity|].
    destruct la as [la|]; [|congruence].
    destruct te as [te|]; [|congruence].
    destruct ao as [ao|]; [|congruence].
    destruct Hcase as [->|[[Hp ->]|(Hp & Hq & ->)]].
    + reflexivity.
    + destruct po; [reflexivity|congruence].
    + destruct po; [|congruence]. destruct qo1; [reflexivity|congruence].
  - destruct Hcase as [->|[[Hp ->]|(Hp & Hq & ->)]].
    + reflexivity.
    + destruct po; [reflexivity|congruence].
    + destruct po; [|congruence]. destruct qo1; [reflexivity|congruence].
Qed.

Lemma train_raises_on_zero_period (s : Trainer) (b : Batch ObsB ActB) (eps eps' : Noise) :
  optimizers_assigned s -> entropy_assigned s -> target_update_period s = 0%Z ->
  fst (train b eps eps' s) = Exc ZeroDivisionError.
Proof.
  intros Ho He Hp. open_trainer s. unfold entropy_assigned, optimizers_assigned in *.
  exec in He. exec in Ho. exec in Hp. subst per.
  destruct Ho as (Hpo & Hq1 & Hq2).
  destruct po as [po|]; [|congruence].
  destruct qo1 as [qo1|]; [|congruence].
  destruct qo2 as [qo2|]; [|congruence].
  destruct auto.
  - destruct He as (Hla & Hte & Hao); [reflexivity|].
    destruct la as [la|]; [|congruence].
    destruct te as [te|]; [|congruence].
    destruct ao as [ao|]; [|congruence].
    reflexivity.
  - reflexivity.
Qed.

Lemma assigned_or_not (s : Trainer) :
  (optimizers_assigned s /\ entropy_assigned s)
  \/ ~ entropy_assigned s
  \/ (entropy_assigned s /\ ~ optimizers_assigned s).
Proof.
  assert (He : entropy_assigned s \/ ~ entropy_assigned s).
  { unfold entropy_assigned.
    destruct (use_automatic_entropy_tuning s); [|left; discriminate].
    destruct (log_alpha s), (target_entropy s), (alpha_optimizer s);
      try (right; intros H; destruct (H eq_refl) as (H1 & H2 & H3); congruence).
    left. intros _. repeat split; discriminate. }
  assert (Ho : optimizers_assigned s \/ ~ optimizers_assigned s).
  { unfold optimizers_assigned.
    destruct (policy_optimizer s), (qf1_optimizer s), (qf2_optimizer s);
      try (right; intros (H1 & H2 & H3); congruence).
    left. repeat split; discriminate. }
  tauto.
Qed.

(** X3: a training call returns normally exactly on an initialized trainer;
    it raises [ZeroDivisionError] exactly when every attribute it reads is
    assigned and the update period is zero; and it raises [AttributeError]
    exactly when an optimizer, or with automatic tuning one of [log_alpha],
    [target_entropy], [alpha_optimizer], is unassigned. *)
Theorem X3_how_a_call_ends (s : Trainer) (b : Batch ObsB ActB) (eps eps' : Noise) :
  (fst (train b eps eps' s) = Val tt <-> initialized s)
  /\ (fst (train b eps eps' s) = Exc ZeroDivisionError <->
      optimizers_assigned s /\ entropy_assigned s /\ target_update_period s = 0%Z)
  /\ (fst (train b eps eps' s) = Exc AttributeError <->
      ~ (optimizers_assigned s /\ entropy_assigned s)).
Proof.
  destruct (assigned_or_not s) as [[Ho He]|[Hne|[He Hno]]].
  - destruct (Z.eq_dec (target_update_period s) 0) as [Hz|Hnz].
    + rewrite (train_raises_on_zero_period b eps eps' Ho He Hz).
      unfold initialized. intuition (try discriminate; try congruence).
    + rewrite (train_returns b eps eps' (conj Ho (conj He Hnz))).
      unfold initialized. intuition (try discriminate; try congruence).
  - rewrite (train_raises_without_entropy_attribute b eps eps' Hne).
    unfold initialized. intuition (try discriminate; try congruence).
  - rewrite (train_raises_without_optimizer b eps eps' He Hno).
    unfold initialized. intuition (try discriminate; try congruence).
Qed.

(** *** Calls that raise part-way *)

(** X5: when the policy's optimizer is assigned and the first critic's is
    not, the call raises [AttributeError] only after the entropy coefficient
    and the policy have been stepped: the policy holds its stepped parameters,
    while the parameters of both critics, the target critics, the counter, the
    statistics and their flag are as at entry.  The failed call is not rolled
    back. *)
Theorem X5_missing_critic_optimizer_leaves_policy_stepped (s : Trainer)
  (b : Batch ObsB ActB) (eps eps' : Noise) (opt : Optimizer) :
  entropy_assigned s ->
  policy_optimizer s = Some opt ->
  qf1_optimizer s = None ->
  exists L Q s1,
    policy_phase b eps s = (Val L, s1)
    /\ qf_loss b eps' (alpha_v L) s1 = (Val Q, s1)
    /\ let s' := snd (train b eps eps' s) in
       let theta0 := p_parameters (policy s) in
       let objective :=
         fun theta => fn (policy_loss L) (with_leaf (leaf_params s1) LPolicy theta) in
       fst (train b eps eps' s) = Exc AttributeError
       /\ p_parameters (policy s') =
            snd (optimizer_step opt theta0
                   (fst (clip_grad_norm_ (Some (autograd objective theta0)) 100)))
       /\ log_alpha s' = log_alpha s1
       /\ q_parameters (qf1 s') = q_parameters (qf1 s)
       /\ q_parameters (qf2 s') = q_parameters (qf2 s)
       /\ target_qf1 s' = target_qf1 s
       /\ target_qf2 s' = target_qf2 s
       /\ _n_train_steps_total s' = _n_train_steps_total s
       /\ eval_statistics s' = eval_statistics s
       /\ _need_to_update_eval_statistics s' = _need_to_update_eval_statistics s.
Proof.
  intros He Hpo Hq1. open_trainer s. unfold entropy_assigned in He.
  exec in He. exec in Hpo. exec in Hq1. subst po qo1.
  destruct auto.
  - destruct He as (Hla & Hte & Hao); [reflexivity|].
    destruct la as [la|]; [|congruence].
    destruct te as [te|]; [|congruence].
    destruct ao as [ao|]; [|congruence].
    do 3 eexists. split; [exec; reflexivity|]. split; [exec; reflexivity|].
    exec. repeat split.
  - do 3 eexists. split; [exec; reflexivity|]. split; [exec; reflexivity|].
    exec. repeat split.
Qed.

(** X6: with every attribute assigned and an update period of zero, the call
    raises [ZeroDivisionError] at the test of the period, in the state the
    three network updates have produced: the policy and both critics hold
    the parameters their optimizers have stepped them to, on the clipped
    gradients of this call's losses, and the target critics, the counter, the
    statistics and their flag are as at entry. *)
Theorem X6_zero_period_raises_after_the_updates (s : Trainer) (b : Batch ObsB ActB)
  (eps eps' : Noise) :
  optimizers_assigned s ->
  entropy_assigned s ->
  target_update_period s = 0%Z ->
  exists L Q norms s2 po qo1 qo2,
    locals b eps eps' s = (Val (L, Q, norms), s2)
    /\ policy_optimizer s = Some po
    /\ qf1_optimizer s = Some qo1
    /\ qf2_optimizer s = Some qo2
    /\ train b eps eps' s = (Exc ZeroDivisionError, s2)
    /\ let s1 := snd (policy_phase b eps s) in
       let theta0 := p_parameters (policy s) in
       let phi1 := q_parameters (qf1 s) in
       let phi2 := q_parameters (qf2 s) in
       let policy_objective :=
         fun theta => fn (policy_loss L) (with_leaf (leaf_params s1) LPolicy theta) in
       let qf1_objective :=
         fun phi => fn (qf1_loss Q) (with_leaf (leaf_params s1) LQf1 phi) in
       let qf2_objective :=
         fun phi => fn (qf2_loss Q) (with_leaf (leaf_params s1) LQf2 phi) in
       p_parameters (policy s2) =
         p_parameters (policy (snd (policy_update (policy_loss L) s1)))
       /\ p_parameters (policy s2) =
            snd (optimizer_step po theta0
                   (fst (clip_grad_norm_ (Some (autograd policy_objective theta0)) 100)))
       /\ q_parameters (qf1 s2) =
            snd (optimizer_step qo1 phi1
                   (fst (clip_grad_norm_ (Some (autograd qf1_objective phi1)) 100)))
       /\ q_parameters (qf2 s2) =
            snd (optimizer_step qo2 phi2
                   (fst (clip_grad_norm_ (Some (autograd qf2_objective phi2)) 100)))
       /\ target_qf1 s2 = target_qf1 s
       /\ target_qf2 s2 = target_qf2 s
       /\ _n_train_steps_total s2 = _n_train_steps_total s
       /\ eval_statistics s2 = eval_statistics s
       /\ _need_to_update_eval_statistics s2 = _need_to_update_eval_statistics s.
Proof.
  intros Ho He Hp. open_trainer s. unfold entropy_assigned, optimizers_assigned in *.
  exec in He. exec in Ho. exec in Hp. subst per.
  destruct Ho as (Hpo & Hq1 & Hq2).
  destruct po as [po|]; [|congruence].
  destruct qo1 as [qo1|]; [|congruence].
  destruct qo2 as [qo2|]; [|congruence].
  destruct auto.
  - destruct He as (Hla & Hte & Hao); [reflexivity|].
    destruct la as [la|]; [|congruence].
    destruct te as [te|]; [|congruence].
    destruct ao as [ao|]; [|congruence].
    do 7 eexists. split; [exec; reflexivity|]. do 3 (split; [exec; reflexivity|]).
    exec. repeat split.
  - do 7 eexists. split; [exec; reflexivity|]. do 3 (split; [exec; reflexivity|]).
    exec. repeat split.
Qed.

(** *** The counter *)

Lemma train_counts (s : Trainer) (b : Batch ObsB ActB) (eps eps' : Noise) :
  initialized s ->
  _n_train_steps_total (snd (train b eps eps' s)) = (_n_train_steps_total s + 1)%Z.
Proof.
  intros Hinit.
  open_initialized s Hinit;
    run_to_period Hper;
    (destruct (Z.eqb_spec (n mod per) 0) as [Hz|Hz]; exec; destruct need; reflexivity).
Qed.

Lemma many_counts (calls : list (Batch ObsB ActB * Noise * Noise)) (s : Trainer) :
  initialized s ->
  initialized (many calls s)
  /\ _n_train_steps_total (many calls s)
     = (_n_train_steps_total s + Z.of_nat (List.length calls))%Z.
Proof.
  revert s. induction calls as [|[[b eps] eps'] calls IH]; intros s Hinit.
  - split; [exact Hinit|]. simpl. lia.
  - change (many ((b, eps, eps') :: calls) s) with (many calls (snd (train b eps eps' s))).
    destruct (IH _ (train_keeps_initialized b eps eps' Hinit)) as (I1 & I2).
    split; [exact I1|].
    rewrite I2, (train_counts b eps eps' Hinit). simpl List.length. lia.
Qed.

(** X2: on an initialized trainer every call of a sequence of training calls
    returns normally, after it the trainer is initialized again, and the
    counter has grown by the number of calls. *)
Theorem X2_counter_counts_calls (s : Trainer)
  (calls : list (Batch ObsB ActB * Noise * Noise)) :
  initialized s ->
  initialized (many calls s)
  /\ _n_train_steps_total (many calls s)
     = (_n_train_steps_total s + Z.of_nat (List.length calls))%Z
  /\ (forall before b eps eps' after,
        calls = before ++ (b, eps, eps') :: after ->
        fst (train b eps eps' (many before s)) = Val tt).
Proof.
  intros Hinit.
  destruct (many_counts calls Hinit) as (I1 & I2).
  split; [exact I1|]. split; [exact I2|].
  intros before b eps eps' after _.
  apply train_returns. apply (many_counts before Hinit).
Qed.

(** *** What a call does not read *)

(** X7: the gradient buffers of the policy, of the two critics and of
    [log_alpha] are cleared before they are used: whatever they hold at entry
    to a call on an initialized trainer, the call ends the same way and in the
    same trainer - up to the buffer of [log_alpha] when the coefficient is
    fixed, which such a call never touches. *)
Theorem X7_stale_gradients_are_not_used (s : Trainer) (b : Batch ObsB ActB)
  (eps eps' : Noise) (gp g1 g2 ga : option Params) :
  initialized s ->
  let s0 := with_grads s gp g1 g2 ga in
  fst (train b eps eps' s0) = fst (train b eps eps' s)
  /\ set_log_alpha_grad (snd (train b eps eps' s0)) None
     = set_log_alpha_grad (snd (train b eps eps' s)) None
  /\ (use_automatic_entropy_tuning s = true ->
      snd (train b eps eps' s0) = snd (train b eps eps' s))
  /\ (use_automatic_entropy_tuning s = false ->
      log_alpha_grad (snd (train b eps eps' s0)) = ga).
Proof.
  intros Hinit.
  open_initialized s Hinit;
    run_to_period Hper;
    (destruct (Z.eqb_spec (n mod per) 0) as [Hz|Hz]; exec; destruct need;
     repeat split; intros; try discriminate; reflexivity).
Qed.

(** X8: with automatic entropy tuning the fixed coefficient [alpha] is never
    read: a call on an initialized trainer ends the same way and in the same
    trainer whatever that attribute holds. *)
Theorem X8_fixed_alpha_unused_when_tuning (s : Trainer) (b : Batch ObsB ActB)
  (eps eps' : Noise) (x : R) :
  initialized s ->
  use_automatic_entropy_tuning s = true ->
  train b eps eps' (with_alpha s x)
  = (fst (train b eps eps' s), with_alpha (snd (train b eps eps' s)) x).
Proof.
  intros Hinit Hauto.
  open_initialized s Hinit; exec in Hauto; [|discriminate].
  run_to_period Hper.
  destruct (Z.eqb_spec (n mod per) 0) as [Hz|Hz]; exec; destruct need; reflexivity.
Qed.

(** X9: the update of the policy and of the entropy coefficient reads the
    observations only: two calls on the same initialized trainer, on batches
    with the same observations and with the same first random draw, leave the
    same policy (parameters and gradient buffer), the same [log_alpha] with
    its buffer, and the same two optimizers, whatever the rewards, terminals,
    actions, next observations and second draw are. *)
Theorem X9_policy_update_reads_observations_only (s : Trainer) (b b' : Batch ObsB ActB)
  (eps eps1 eps2 : Noise) :
  initialized s ->
  observations b = observations b' ->
  let s1 := snd (train b eps eps1 s) in
  let s2 := snd (train b' eps eps2 s) in
  policy s1 = policy s2
  /\ policy_optimizer s1 = policy_optimizer s2
  /\ log_alpha s1 = log_alpha s2
  /\ log_alpha_grad s1 = log_alpha_grad s2
  /\ alpha_optimizer s1 = alpha_optimizer s2.
Proof.
  intros Hinit Hobs.
  destruct b as [r tm o a no]. destruct b' as [r' tm' o' a' no'].
  simpl in Hobs. subst o'.
  open_initialized s Hinit;
    run_to_period Hper;
    (destruct (Z.eqb_spec (n mod per) 0) as [Hz|Hz]; exec; destruct need;
     repeat split; reflexivity).
Qed.

(** *** What a recompute reports *)

(** X10: a recompute on an initialized trainer stores under "QF1 Loss" and
    "QF2 Loss" the two critic losses, which are not negative; under the three
    "Grad Norm" keys the norms that clipping returned for this call's
    gradients; and, with automatic tuning, under "Alpha" the coefficient the
    call used and under "Alpha Loss" the value of its alpha loss. *)
Theorem X10_reported_losses_and_norms (s : Trainer) (b : Batch ObsB ActB)
  (eps eps' : Noise) :
  initialized s ->
  _need_to_update_eval_statistics s = true ->
  exists L Q norm_policy norm_qf1 norm_qf2 s2,
    locals b eps eps' s = (Val (L, Q, (norm_policy, norm_qf1, norm_qf2)), s2)
    /\ let after := eval_statistics (snd (train b eps eps' s)) in
       let s1 := snd (policy_phase b eps s) in
       let policy_gradient :=
         autograd (fun theta => fn (policy_loss L) (with_leaf (leaf_params s1) LPolicy theta))
           (p_parameters (policy s)) in
       let qf1_gradient :=
         autograd (fun phi => fn (qf1_loss Q) (with_leaf (leaf_params s1) LQf1 phi))
           (q_parameters (qf1 s)) in
       let qf2_gradient :=
         autograd (fun phi => fn (qf2_loss Q) (with_leaf (leaf_params s1) LQf2 phi))
           (q_parameters (qf2 s)) in
       od_get "QF1 Loss" after = Some (Num (data (qf1_loss Q)))
       /\ od_get "QF2 Loss" after = Some (Num (data (qf2_loss Q)))
       /\ 0 <= data (qf1_loss Q)
       /\ 0 <= data (qf2_loss Q)
       /\ od_get "Policy Grad Norm" after = Some (Num norm_policy)
       /\ od_get "QF1 Grad Norm" after = Some (Num norm_qf1)
       /\ od_get "QF2 Grad Norm" after = Some (Num norm_qf2)
       /\ norm_policy = snd (clip_grad_norm_ (Some policy_gradient) 100)
       /\ norm_qf1 = snd (clip_grad_norm_ (Some qf1_gradient) 100)
       /\ norm_qf2 = snd (clip_grad_norm_ (Some qf2_gradient) 100)
       /\ (use_automatic_entropy_tuning s = true ->
           od_get "Alpha" after = Some (Num (data (alpha_v L)))
           /\ od_get "Alpha Loss" after = Some (Num (data (alpha_loss L)))).
Proof.
  intros Hinit Hneed.
  open_initialized s Hinit; exec in Hneed; subst need;
    do 6 eexists; (split; [exec; reflexivity|]);
    run_to_period Hper;
    (destruct (Z.eqb_spec (n mod per) 0) as [Hz|Hz]; exec;
     (split; [od_lookup; reflexivity|]);
     (split; [od_lookup; reflexivity|]);
     (split; [apply MSELoss_nonneg|]);
     (split; [apply MSELoss_nonneg|]);
     (split; [od_lookup; reflexivity|]);
     (split; [od_lookup; reflexivity|]);
     (split; [od_lookup; reflexivity|]);
     do 3 (split; [reflexivity|]);
     intros Ha; try discriminate; split; od_lookup; reflexivity).
Qed.

(** *** The snapshot *)

(** what the snapshot holds under the key of a network *)
Lemma snapshot_of (t : Trainer) :
  optimizers_assigned t ->
  exists po qo1 qo2,
    policy_optimizer t = Some po /\ qf1_optimizer t = Some qo1
    /\ qf2_optimizer t = Some qo2
    /\ get_snapshot t =
         (Val {| sn_policy := match p_module (policy t) with
                              | Some m => ItsModule m
                              | None => Itself (policy t)
                              end;
                 sn_qf1 := match q_module (qf1 t) with
                           | Some m => ItsModule m
                           | None => Itself (qf1 t)
                           end;
                 sn_qf2 := match q_module (qf2 t) with
                           | Some m => ItsModule m
                           | None => Itself (qf2 t)
                           end;
                 sn_target_qf1 := match q_module (target_qf1 t) with
                                  | Some m => ItsModule m
                                  | None => Itself (target_qf1 t)
                                  end;
                 sn_target_qf2 := match q_module (target_qf2 t) with
                                  | Some m => ItsModule m
                                  | None => Itself (target_qf2 t)
                                  end;
                 sn_policy_optimizer := po; sn_qf1_optimizer := qo1;
                 sn_qf2_optimizer := qo2 |}, t).
Proof.
  intros (H1 & H2 & H3). open_trainer t. exec in H1. exec in H2. exec in H3.
  destruct po as [po|]; [|congruence].
  destruct qo1 as [qo1|]; [|congruence].
  destruct qo2 as [qo2|]; [|congruence].
  exists po, qo1, qo2. repeat split.
Qed.

(** X11: after any sequence of training calls on an initialized trainer
    [get_snapshot] returns and leaves the trainer as it is.  Under the key of
    a network that had an attribute [module] when the calls began it holds
    that object, which no call has replaced, and not the network; under the
    key of any other network it holds the network as the calls have left it.
    The three optimizers are held as they are, never unwrapped.  On a trainer
    that lacks one of the three optimizers it raises [AttributeError]. *)
Theorem X11_snapshot (s : Trainer) (calls : list (Batch ObsB ActB * Noise * Noise)) :
  initialized s ->
  let s' := many calls s in
  (exists po qo1 qo2,
     policy_optimizer s' = Some po /\ qf1_optimizer s' = Some qo1
     /\ qf2_optimizer s' = Some qo2
     /\ get_snapshot s' =
          (Val {| sn_policy := match p_module (policy s) with
                               | Some m => ItsModule m
                               | None => Itself (policy s')
                               end;
                  sn_qf1 := match q_module (qf1 s) with
                            | Some m => ItsModule m
                            | None => Itself (qf1 s')
                            end;
                  sn_qf2 := match q_module (qf2 s) with
                            | Some m => ItsModule m
                            | None => Itself (qf2 s')
                            end;
                  sn_target_qf1 := match q_module (target_qf1 s) with
                                   | Some m => ItsModule m
                                   | None => Itself (target_qf1 s')
                                   end;
                  sn_target_qf2 := match q_module (target_qf2 s) with
                                   | Some m => ItsModule m
                                   | None => Itself (target_qf2 s')
                                   end;
                  sn_policy_optimizer := po; sn_qf1_optimizer := qo1;
                  sn_qf2_optimizer := qo2 |}, s'))
  /\ (forall t : Trainer,
        ~ optimizers_assigned t -> get_snapshot t = (Exc AttributeError, t)).
Proof.
  intros Hinit s'. split.
  - destruct (many_counts calls Hinit) as ((Ho & _) & _).
    destruct (snapshot_of Ho) as (po & qo1 & qo2 & E1 & E2 & E3 & E).
    pose proof (many_keeps_fixed calls s) as Hfix.
    fold s' in Hfix.
    assert (Hm : module_attributes s' = module_attributes s).
    { unfold fixed_part in Hfix. congruence. }
    unfold module_attributes in Hm. injection Hm as Hp H1 H2 H3 H4.
    exists po, qo1, qo2. repeat (split; [assumption|]).
    rewrite <- Hp, <- H1, <- H2, <- H3, <- H4. exact E.
  - intros t H. open_trainer t. unfold optimizers_assigned in H. exec in H.
    destruct po, qo1, qo2; try reflexivity.
    exfalso. apply H. repeat split; discriminate.
Qed.

(** *** A trainer as constructed *)

Lemma alpha_loss_at_zero (t : Tensor) : - mean (scale 0 t) = 0.
Proof.
  assert (H : tsum (scale 0 t) = 0).
  { unfold scale. induction t as [|x t IH]; simpl; [reflexivity|]. rewrite IH. ring. }
  unfold mean. rewrite H. unfold Rdiv. ring.
Qed.

Lemma constructed_target_entropy (auto : bool) (te : option R) (shape : list Z) :
  (if auto
   then if truthy te then te else Some (- IZR (np_prod shape))
   else None)
  = if auto
    then Some (match te with
               | Some r => if Req_dec_T r 0 then - IZR (np_prod shape) else r
               | None => - IZR (np_prod shape)
               end)
    else None.
Proof.
  destruct auto; [|reflexivity].
  destruct te as [r|]; simpl; [|reflexivity].
  destruct (Req_dec_T r 0); reflexivity.
Qed.

(** X1: a trainer constructed without optimizers of the caller's and with a
    non-zero update period is initialized, with counter 0 and an empty
    statistics mapping.  Its first training call returns, brings the counter
    to 1, synchronises both target critics whatever the period (the counter
    is 0 at entry), and fills the mapping with the entries recomputed from
    that call; with automatic tuning, [log_alpha] starting at zero, the alpha
    loss it reports is 0. *)
Theorem X1_first_call_of_a_constructed_trainer (a : InitArgs ObsB ActB Noise Inner Optimizer)
  (b : Batch ObsB ActB) (eps eps' : Noise) :
  a_policy_optimizer a = None ->
  a_qf1_optimizer a = None ->
  a_qf2_optimizer a = None ->
  a_target_update_period a <> 0%Z ->
  let s := __init__ a in
  let s' := snd (train b eps eps' s) in
  initialized s
  /\ _n_train_steps_total s = 0%Z
  /\ eval_statistics s = []
  /\ fst (train b eps eps' s) = Val tt
  /\ _n_train_steps_total s' = 1%Z
  /\ _need_to_update_eval_statistics s' = false
  /\ q_parameters (target_qf1 s') =
       soft_update_from_to (q_parameters (qf1 s')) (q_parameters (a_target_qf1 a))
         (a_soft_target_tau a)
  /\ q_parameters (target_qf2 s') =
       soft_update_from_to (q_parameters (qf2 s')) (q_parameters (a_target_qf2 a))
         (a_soft_target_tau a)
  /\ (exists L Q norms s2,
        locals b eps eps' s = (Val (L, Q, norms), s2)
        /\ eval_statistics s' =
             od_update [] (statistics_entries L Q norms (a_use_automatic_entropy_tuning a)))
  /\ (a_use_automatic_entropy_tuning a = true ->
      od_get "Alpha Loss" (eval_statistics s') = Some (Num 0)).
Proof.
  intros Hpo Hq1 Hq2 Hper.
  destruct a as [e p q1 q2 t1 t2 d rs plr qlr oc tau per ren al auto te po qo1 qo2].
  simpl in Hpo, Hq1, Hq2, Hper. subst po qo1 qo2.
  apply Z.eqb_neq in Hper.
  unfold __init__.
  cbn [a_use_automatic_entropy_tuning a_target_entropy a_env a_policy a_qf1 a_qf2
       a_target_qf1 a_target_qf2 a_discount a_reward_scale a_policy_lr a_qf_lr
       a_optimizer_class a_soft_target_tau a_target_update_period a_render_eval_paths
       a_alpha a_policy_optimizer a_qf1_optimizer a_qf2_optimizer].
  cbv zeta. rewrite constructed_target_entropy.
  destruct auto.
  - unfold initialized, optimizers_assigned, entropy_assigned.
    exec. rewrite Hper. exec. rewrite Z.mod_0_l by (apply Z.eqb_neq; exact Hper).
    change (0 =? 0)%Z with true. exec.
    split; [repeat split; try discriminate; apply Z.eqb_neq; exact Hper|].
    do 7 (split; [reflexivity|]).
    split; [do 4 eexists; split; reflexivity|].
    intros _. od_lookup. rewrite alpha_loss_at_zero. reflexivity.
  - unfold initialized, optimizers_assigned, entropy_assigned.
    exec. rewrite Hper. exec. rewrite Z.mod_0_l by (apply Z.eqb_neq; exact Hper).
    change (0 =? 0)%Z with true. exec.
    split; [repeat split; try discriminate; apply Z.eqb_neq; exact Hper|].
    do 7 (split; [reflexivity|]).
    split; [do 4 eexists; split; reflexivity|].
    intros H. discriminate H.
Qed.

(** *** Sequences of calls *)

Lemma train_targets (s : Trainer) (b : Batch ObsB ActB) (eps eps' : Noise) :
  initialized s ->
  let s' := snd (train b eps eps' s) in
  ((_n_train_steps_total s mod target_update_period s)%Z = 0%Z ->
   target_qf1 s' =
     set_q_parameters (target_qf1 s)
       (soft_update_from_to (q_parameters (qf1 s')) (q_parameters (target_qf1 s))
          (soft_target_tau s))
   /\ target_qf2 s' =
        set_q_parameters (target_qf2 s)
          (soft_update_from_to (q_parameters (qf2 s')) (q_parameters (target_qf2 s))
             (soft_target_tau s)))
  /\ ((_n_train_steps_total s mod target_update_period s)%Z <> 0%Z ->
      target_qf1 s' = target_qf1 s /\ target_qf2 s' = target_qf2 s).
Proof.
  intros Hinit.
  open_initialized s Hinit;
    run_to_period Hper;
    (destruct (Z.eqb_spec (n mod per) 0) as [Hz|Hz]; exec; destruct need; exec;
     split; intros Htrig; try contradiction; split; reflexivity).
Qed.

(** X12: in a sequence of training calls on an initialized trainer whose
    counter is [n], the call that follows [k] others synchronises the target
    critics exactly when [period] divides [n + k]: then each target critic's
    parameters become the moving average with the online critic as that call
    stepped it, and otherwise that call leaves both target critics as they
    were. *)
Theorem X12_synchronisation_schedule (s : Trainer)
  (before : list (Batch ObsB ActB * Noise * Noise)) (b : Batch ObsB ActB)
  (eps eps' : Noise) :
  initialized s ->
  let s0 := many before s in
  let s1 := snd (train b eps eps' s0) in
  let k := (_n_train_steps_total s + Z.of_nat (List.length before))%Z in
  ((k mod target_update_period s)%Z = 0%Z ->
   q_parameters (target_qf1 s1) =
     soft_update_from_to (q_parameters (qf1 s1)) (q_parameters (target_qf1 s0))
       (soft_target_tau s)
   /\ q_parameters (target_qf2 s1) =
        soft_update_from_to (q_parameters (qf2 s1)) (q_parameters (target_qf2 s0))
          (soft_target_tau s))
  /\ ((k mod target_update_period s)%Z <> 0%Z ->
      target_qf1 s1 = target_qf1 s0 /\ target_qf2 s1 = target_qf2 s0).
Proof.
  intros Hinit s0 s1 k.
  destruct (many_counts before Hinit) as (I0 & Hn).
  pose proof (many_keeps_fixed before s) as Hfix.
  assert (Hp : target_update_period s0 = target_update_period s).
  { unfold fixed_part, hyperparameters in Hfix. subst s0. congruence. }
  assert (Ht : soft_target_tau s0 = soft_target_tau s).
  { unfold fixed_part, hyperparameters in Hfix. subst s0. congruence. }
  destruct (train_targets b eps eps' I0) as (Hsync & Hskip).
  fold s0 in Hsync, Hskip, Hn. fold s1 in Hsync, Hskip.
  rewrite Hp, Hn in Hsync, Hskip. rewrite Ht in Hsync. fold k in Hsync, Hskip.
  split.
  - intros Hk. destruct (Hsync Hk) as (E1 & E2). rewrite E1, E2. split; reflexivity.
  - exact Hskip.
Qed.

Lemma train_keeps_keys (s : Trainer) (b : Batch ObsB ActB) (eps eps' : Noise) :
  initialized s ->
  (forall k, In k (od_keys (eval_statistics s)) ->
             In k (od_keys (eval_statistics (snd (train b eps eps' s)))))
  /\ (forall k, ~ In k statistics_keys ->
                od_get k (eval_statistics (snd (train b eps eps' s)))
                = od_get k (eval_statistics s)).
Proof.
  intros Hinit.
  destruct (_need_to_update_eval_statistics s) eqn:Hneed.
  - destruct (train_recomputes_statistics b eps eps' Hinit Hneed)
      as (L & Q & norms & s2 & _ & E).
    rewrite E. split.
    + intros k Hk. apply od_keys_update. exact Hk.
    + intros k Hk. apply od_get_update_other. rewrite statistics_entries_keys. exact Hk.
  - rewrite (train_skips_statistics b eps eps' Hinit Hneed). split; intros; tauto.
Qed.

(** X13: across any sequence of training calls on an initialized trainer, no
    key of the statistics mapping is ever dropped, and a key that no
    recompute writes keeps the value it had. *)
Theorem X13_statistics_keys_persist (s : Trainer)
  (calls : list (Batch ObsB ActB * Noise * Noise)) :
  initialized s ->
  (forall k, In k (od_keys (eval_statistics s)) ->
             In k (od_keys (eval_statistics (many calls s))))
  /\ (forall k, ~ In k statistics_keys ->
                od_get k (eval_statistics (many calls s)) = od_get k (eval_statistics s)).
Proof.
  revert s. induction calls as [|[[b eps] eps'] calls IH]; intros s Hinit.
  - split; intros; tauto.
  - change (many ((b, eps, eps') :: calls) s) with (many calls (snd (train b eps eps' s))).
    destruct (IH _ (train_keeps_initialized b eps eps' Hinit)) as (I1 & I2).
    destruct (train_keeps_keys b eps eps' Hinit) as (T1 & T2).
    split.
    + intros k Hk. apply I1. apply T1. exact Hk.
    + intros k Hk. rewrite (I2 k Hk). apply T2. exact Hk.
Qed.

(** *** The two critics *)

(** X14: each critic is updated from its own loss alone: replacing the other
    critic and the other critic's optimizer by any others changes nothing in
    what a call on an initialized trainer leaves as this critic (parameters
    and gradient buffer), as its optimizer and as its target critic. *)
Theorem X14_critic_updates_are_independent (s : Trainer) (b : Batch ObsB ActB)
  (eps eps' : Noise) (q : QNet ObsB ActB Inner) (o : Optimizer) :
  initialized s ->
  let s' := snd (train b eps eps' s) in
  let with_other_qf2 := snd (train b eps eps' (set_qf2_optimizer (set_qf2 s q) (Some o))) in
  let with_other_qf1 := snd (train b eps eps' (set_qf1_optimizer (set_qf1 s q) (Some o))) in
  qf1 with_other_qf2 = qf1 s'
  /\ qf1_optimizer with_other_qf2 = qf1_optimizer s'
  /\ target_qf1 with_other_qf2 = target_qf1 s'
  /\ qf2 with_other_qf1 = qf2 s'
  /\ qf2_optimizer with_other_qf1 = qf2_optimizer s'
  /\ target_qf2 with_other_qf1 = target_qf2 s'.
Proof.
  intros Hinit.
  open_initialized s Hinit;
    run_to_period Hper;
    (destruct (Z.eqb_spec (n mod per) 0) as [Hz|Hz]; exec; destruct need;
     repeat split; reflexivity).
Qed.

End Facts.

(** * The small trainer *)

Lemma toy_constructed_by_init (auto : bool) :
  Toy.constructed auto = __init__ (Toy.args auto).
Proof.
  unfold Toy.constructed, Toy.args.
  destruct auto; exec; [rewrite truthy_nonzero by lra|]; reflexivity.
Qed.

Lemma toy_initialized (auto : bool) : initialized (Toy.constructed auto).
Proof.
  unfold initialized, optimizers_assigned, entropy_assigned, Toy.constructed.
  destruct auto; exec; repeat split; try discriminate; intros; discriminate.
Qed.

Lemma toy_init_initialized : initialized (__init__ (Toy.args true)).
Proof. rewrite <- toy_constructed_by_init. exact (toy_initialized true). Qed.

Lemma toy_stale_initialized : initialized Toy.trainer_with_stale_key.
Proof. exact (toy_initialized true). Qed.

(** ** Exact derivatives of the small networks' losses *)

Lemma deriv_eq (f : R -> R) (x l : R) : derivable_pt_lim f x l -> deriv f x = l.
Proof.
  intros H. unfold deriv.
  apply (uniqueness_limite f x); [|exact H].
  apply (epsilon_spec (inhabits 0) (fun l0 => derivable_pt_lim f x l0)).
  exists l. exact H.
Qed.

Lemma derivable_pt_lim_pointwise (f g : R -> R) (x l : R) :
  (forall y, f y = g y) -> derivable_pt_lim g x l -> derivable_pt_lim f x l.
Proof.
  intros E H eps Heps. destruct (H eps Heps) as [delta Hd].
  exists delta. intros h Hh Hlt. rewrite !E. apply Hd; assumption.
Qed.

Lemma deriv_affine (f : R -> R) (x a c : R) :
  (forall y, f y = a * y + c) -> deriv f x = a.
Proof.
  intros E. apply deriv_eq.
  apply derivable_pt_lim_pointwise with (g := (mult_real_fct a id + fct_cte c)%F); [exact E|].
  replace a with (a * 1 + 0) at 2 by ring.
  apply derivable_pt_lim_plus.
  - apply derivable_pt_lim_scal. apply derivable_pt_lim_id.
  - apply derivable_pt_lim_const.
Qed.

Lemma deriv_square (f : R -> R) (x c : R) :
  (forall y, f y = (y + c) * (y + c)) -> deriv f x = 2 * (x + c).
Proof.
  intros E. apply deriv_eq.
  apply derivable_pt_lim_pointwise with (g := ((id + fct_cte c) * (id + fct_cte c))%F);
    [exact E|].
  replace (2 * (x + c)) with ((1 + 0) * (id + fct_cte c)%F x + (id + fct_cte c)%F x * (1 + 0))
    by (unfold plus_fct, id, fct_cte; ring).
  apply derivable_pt_lim_mult;
    (apply derivable_pt_lim_plus; [apply derivable_pt_lim_id|apply derivable_pt_lim_const]).
Qed.

Lemma deriv_exp_affine (f : R -> R) (x a c : R) :
  (forall y, f y = exp y * a + c) -> deriv f x = exp x * a.
Proof.
  intros E. apply deriv_eq.
  apply derivable_pt_lim_pointwise with (g := (exp * fct_cte a + fct_cte c)%F); [exact E|].
  replace (exp x * a) with (exp x * fct_cte a x + exp x * 0 + 0)
    by (unfold fct_cte; ring).
  apply derivable_pt_lim_plus.
  - apply derivable_pt_lim_mult; [apply derivable_pt_lim_exp|apply derivable_pt_lim_const].
  - apply derivable_pt_lim_const.
Qed.

(** a gradient of norm at most 99 is not rescaled by clipping at 100 *)
Lemma clip_inactive (g : R) :
  -99 <= g <= 99 -> ~ 100 / (sqrt (g * g + 0) + / 1000000) < 1.
Proof.
  intros Hg H.
  replace (g * g + 0) with (Rsqr g) in H by (unfold Rsqr; ring).
  rewrite sqrt_Rsqr_abs in H.
  assert (Ha : 0 <= Rabs g <= 99).
  { split; [apply Rabs_pos|]. apply Rabs_le. lra. }
  apply (Rmult_lt_compat_r (Rabs g + / 1000000)) in H; [|lra].
  unfold Rdiv in H. rewrite Rmult_assoc, Rinv_l in H by lra. lra.
Qed.

(** evaluation of the small trainer down to real arithmetic *)
Ltac toy_exec :=
  lazy -[Rplus Rminus Rmult Rdiv Rinv Ropp Rmin Rmax Rabs exp sqrt deriv IZR INR
         Rlt_dec Rle_dec Req_dec_T Rlt Rle Rgt Rge].

Ltac min_cases := unfold Rmin; repeat (destruct (Rle_dec _ _)); simpl INR.

Ltac deriv_is_affine a c :=
  match goal with
  | |- context [deriv ?f ?x] =>
      lazymatch f with
      | context [deriv] => fail
      | _ => rewrite (@deriv_affine f x a c) by (intros; min_cases; lra)
      end
  end.

Ltac deriv_is_square c :=
  match goal with
  | |- context [deriv ?f ?x] =>
      lazymatch f with
      | context [deriv] => fail
      | _ => rewrite (@deriv_square f x c) by (intros; min_cases; try lra; field)
      end
  end.

Ltac deriv_is_exp a c :=
  match goal with
  | |- context [deriv ?f ?x] =>
      lazymatch f with
      | context [deriv] => fail
      | _ => rewrite (@deriv_exp_affine f x a c) by (intros; min_cases; try lra; field)
      end
  end.

Ltac exp_at_zero :=
  match goal with
  | |- context [exp ?t] => replace t with 0 by lra; rewrite exp_0
  end.

Ltac no_clip :=
  match goal with
  | |- context [Rlt_dec ?c 1] =>
      destruct (Rlt_dec c 1) as [Hc|Hc];
      [exfalso; revert Hc; apply clip_inactive; lra|]
  end.

(** ** One call on the freshly constructed trainer *)

Lemma toy_policy_stepped :
  p_parameters (policy (snd (Toy.train Toy.batch Toy.trainer))) = [[2]].
Proof.
  toy_exec. deriv_is_affine 0 0. exp_at_zero. deriv_is_affine (-1) 0. no_clip.
  repeat f_equal. lra.
Qed.

Lemma toy_qf1_stepped :
  q_parameters (qf1 (snd (Toy.train Toy.batch Toy.trainer))) = [[2]].
Proof.
  toy_exec. deriv_is_affine 0 0. exp_at_zero. deriv_is_square (-1). no_clip.
  repeat f_equal. lra.
Qed.

Lemma toy_qf2_stepped :
  q_parameters (qf2 (snd (Toy.train Toy.batch Toy.trainer))) = [[1]].
Proof.
  toy_exec. deriv_is_affine 0 0. exp_at_zero. deriv_is_square (-1). no_clip.
  repeat f_equal. lra.
Qed.

(** ** The theorems at the small trainer *)

Lemma C10_witness :
  a_use_automatic_entropy_tuning Toy.args_with_policy_optimizer = true
  /\ Forall int64 (action_space_shape (a_env Toy.args_with_policy_optimizer))
  /\ a_target_entropy Toy.args_with_policy_optimizer = Some 0
  /\ target_entropy (__init__ Toy.args_with_policy_optimizer) = Some (-1)
  /\ a_target_entropy (Toy.args true) = Some (-1)
  /\ target_entropy (__init__ (Toy.args true)) = Some (-1).
Proof.
  assert (Hshape : Forall int64 [1%Z]).
  { repeat constructor; unfold int64; lia. }
  split; [reflexivity|]. split; [exact Hshape|]. split; [reflexivity|]. split.
  - assert (Hfit : int64 (spec_prod [1%Z])) by (unfold int64; simpl; lia).
    destruct (proj1 (C10_falsy_target_entropy_ignored Toy.args_with_policy_optimizer
                       eq_refl Hshape) (or_introl eq_refl))
      as (_ & E).
    exact (E Hfit).
  - split; [reflexivity|].
    apply (proj2 (C10_falsy_target_entropy_ignored (Toy.args true) eq_refl Hshape)
             (-1) eq_refl).
    lra.
Defined.

Lemma C9_witness :
  let s := __init__ Toy.args_with_policy_optimizer in
  a_policy_optimizer Toy.args_with_policy_optimizer <> None
  /\ policy_optimizer s = None
  /\ fst (train_from_torch sgd_step exact_autograd clip_by_norm Toy.batch tt tt s)
     = Exc AttributeError
  /\ fst (get_snapshot s) = Exc AttributeError.
Proof.
  intros s.
  assert (H : a_policy_optimizer Toy.args_with_policy_optimizer <> None) by discriminate.
  destruct (C9_supplied_optimizer_discarded sgd_step exact_autograd clip_by_norm
              Toy.args_with_policy_optimizer Toy.batch tt tt (or_introl H))
    as (A & _ & _ & B & C).
  split; [exact H|]. split; [exact (A H)|]. split; [exact B|exact C].
Defined.

Lemma C4_witness :
  let s' := snd (Toy.train Toy.batch Toy.trainer) in
  initialized Toy.trainer
  /\ (_n_train_steps_total Toy.trainer mod target_update_period Toy.trainer)%Z = 0%Z
  /\ soft_target_tau Toy.trainer = 1
  /\ _n_train_steps_total s' = 1%Z
  /\ q_parameters (target_qf1 s') = q_parameters (qf1 s')
  /\ q_parameters (target_qf2 s') = q_parameters (qf2 s').
Proof.
  intros s'.
  destruct (C4_target_networks_synchronised sgd_step exact_autograd clip_by_norm
              Toy.batch tt tt (toy_initialized true))
    as (_ & Hn & Htrig & _).
  split; [exact (toy_initialized true)|]. split; [reflexivity|]. split; [reflexivity|].
  split; [exact Hn|].
  destruct (Htrig eq_refl) as (_ & _ & Hone).
  apply (Hone eq_refl).
  - rewrite toy_qf1_stepped. repeat constructor.
  - rewrite toy_qf2_stepped. repeat constructor.
Defined.

Lemma C7_witness :
  let c := (Toy.batch, tt, tt) in
  let many := train_many sgd_step exact_autograd clip_by_norm in
  initialized Toy.trainer
  /\ eval_statistics (many [c; c; c] Toy.trainer) = eval_statistics (many [c] Toy.trainer)
  /\ _need_to_update_eval_statistics (many [c; c; c] Toy.trainer) = false.
Proof.
  intros c many.
  split; [exact (toy_initialized true)|].
  exact (proj1 (C7_statistics_once_per_epoch sgd_step exact_autograd clip_by_norm
                  (toy_initialized true)) c [c; c]).
Defined.

Lemma C8_witness :
  let s' := snd (Toy.train Toy.batch Toy.trainer_fixed) in
  initialized Toy.trainer_fixed
  /\ use_automatic_entropy_tuning Toy.trainer_fixed = false
  /\ _need_to_update_eval_statistics Toy.trainer_fixed = true
  /\ fst (Toy.train Toy.batch Toy.trainer_fixed) = Val tt
  /\ alpha s' = 1
  /\ od_get "Alpha Loss" (eval_statistics s') = Some NaN
  /\ od_get "Alpha" (eval_statistics s') = Some (Num 1).
Proof.
  intros s'.
  destruct (C8_fixed_alpha_reports_nan sgd_step exact_autograd clip_by_norm
              Toy.batch tt tt (toy_initialized false) eq_refl)
    as (L & Q & norms & s2 & _ & _ & Hret & Ha & _ & _ & _ & Hstat).
  split; [exact (toy_initialized false)|]. split; [reflexivity|]. split; [reflexivity|].
  split; [exact Hret|]. split; [exact Ha|]. exact (Hstat eq_refl).
Defined.

Lemma C6_witness :
  let s0 := snd (Toy.train Toy.batch (__init__ (Toy.args true))) in
  let s := snd (end_epoch 0 s0) in
  let s' := snd (Toy.train ToyCases.other_batch s) in
  driven sgd_step exact_autograd clip_by_norm s
  /\ _need_to_update_eval_statistics s = true
  /\ exists L Q norms s2,
       call_locals sgd_step exact_autograd clip_by_norm ToyCases.other_batch tt tt s
       = (Val (L, Q, norms), s2)
       /\ eval_statistics s'
          = od_update [] (statistics_entries L Q norms (use_automatic_entropy_tuning s))
       /\ _need_to_update_eval_statistics s' = false.
Proof.
  intros s0 s s'.
  assert (Hd : driven sgd_step exact_autograd clip_by_norm s).
  { apply driven_end_epoch. apply driven_train. apply driven_init.
    exact toy_init_initialized. }
  split; [exact Hd|]. split; [reflexivity|].
  destruct (C6_statistics_replaced_on_recompute ToyCases.other_batch tt tt Hd eq_refl)
    as (L & Q & norms & s2 & E & Hafter & _ & _ & _ & Hflag).
  exists L, Q, norms, s2. split; [exact E|]. split; [exact Hafter|exact Hflag].
Defined.

Lemma C2_witness :
  initialized Toy.trainer
  /\ exists L Q norms s2,
       call_locals sgd_step exact_autograd clip_by_norm Toy.batch tt tt Toy.trainer
       = (Val (L, Q, norms), s2)
       /\ graph (qf1_loss Q) = [LQf1]
       /\ graph (qf2_loss Q) = [LQf2]
       /\ 0 <= data (qf1_loss Q)
       /\ 0 <= data (qf2_loss Q).
Proof.
  split; [exact (toy_initialized true)|].
  destruct (C2_q_target_shared_detached sgd_step exact_autograd clip_by_norm
              Toy.batch tt tt (toy_initialized true))
    as (L & Q & norms & s2 & qo1 & qo2 & E & _ & _ & _ & _ & _ & _ & _ & _ & _ & _ & _
        & Hg1 & Hg2 & Hp1 & Hp2 & _).
  exists L, Q, norms, s2. split; [exact E|]. split; [exact Hg1|]. split; [exact Hg2|].
  split; [exact Hp1|exact Hp2].
Defined.

Lemma C5_witness :
  initialized Toy.trainer
  /\ _need_to_update_eval_statistics Toy.trainer = true
  /\ od_get "Policy Loss" (eval_statistics (snd (Toy.train Toy.batch Toy.trainer)))
     = Some (Num (spec_reported_policy_loss [1] [1 * 2 + 0] [1 * 2 + 1])).
Proof.
  split; [exact (toy_initialized true)|]. split; [reflexivity|].
  destruct (C5_policy_loss_optimized_and_reported sgd_step exact_autograd clip_by_norm
              Toy.batch tt tt (toy_initialized true))
    as (L & Q & norms & s2 & po & _ & _ & _ & _ & _ & _ & Hstat).
  exact (Hstat eq_refl).
Defined.

Lemma C3_witness :
  initialized Toy.trainer
  /\ use_automatic_entropy_tuning Toy.trainer = true
  /\ exists L Q norms s2,
       call_locals sgd_step exact_autograd clip_by_norm Toy.batch tt tt Toy.trainer
       = (Val (L, Q, norms), s2)
       /\ 0 < data (alpha_v L)
       /\ graph (alpha_v L) = [LLogAlpha].
Proof.
  split; [exact (toy_initialized true)|]. split; [reflexivity|].
  destruct (C3_entropy_coefficient_update sgd_step exact_autograd clip_by_norm
              Toy.batch tt tt (toy_initialized true) eq_refl)
    as (L & Q & norms & s2 & la & te & ao & E & _ & _ & _ & _ & _ & _ & _ & _ & _
        & Hpos & Hgraph & _).
  exists L, Q, norms, s2. split; [exact E|]. split; [exact Hpos|exact Hgraph].
Defined.

Lemma C1_witness :
  initialized Toy.trainer
  /\ exists L Q norms s2,
       call_locals sgd_step exact_autograd clip_by_norm Toy.batch tt tt Toy.trainer
       = (Val (L, Q, norms), s2)
       /\ data (q_target Q)
          = bootstrap_target Toy.trainer Toy.batch tt (data (alpha_v L)) [[1]].
Proof.
  split; [exact (toy_initialized true)|].
  destruct (C1_order_of_a_call sgd_step exact_autograd clip_by_norm
              Toy.batch tt tt (toy_initialized true))
    as (L & Q & norms & s2 & po & qo1 & qo2 & E & _ & _ & _ & _ & _ & _ & _ & _ & _ & _
        & Htarget & _).
  exists L, Q, norms, s2. split; [exact E|exact Htarget].
Defined.

(** ** Where the code differs from the reference sequence and the detached
    coefficient *)

(** One call on the fresh trainer: the [q_target] the call computes is [2],
    from the policy parameter 1 it had at entry; the policy's step moves the
    parameter to 2, and the target computed from the stepped policy would be
    [3].  The target computation therefore does not come after the policy's
    step. *)
Lemma C1_counterexample_target_precedes_policy_step :
  exists L Q norms s2,
    call_locals sgd_step exact_autograd clip_by_norm Toy.batch tt tt Toy.trainer
    = (Val (L, Q, norms), s2)
    /\ data (alpha_v L) = 1
    /\ data (q_target Q) = [2]
    /\ p_parameters (policy s2) = [[2]]
    /\ p_parameters (policy (snd (Toy.train Toy.batch Toy.trainer))) = [[2]]
    /\ bootstrap_target Toy.trainer Toy.batch tt (data (alpha_v L)) (p_parameters (policy s2))
       = [3]
    /\ data (q_target Q)
       <> bootstrap_target Toy.trainer Toy.batch tt (data (alpha_v L))
            (p_parameters (policy s2)).
Proof.
  do 4 eexists. split; [toy_exec; reflexivity|].
  assert (Ha : exp (0 - 1 * deriv (fun y0 : R => - ((y0 * (1 + -1) + 0) / INR 1)) 0) = 1).
  { deriv_is_affine 0 0. exp_at_zero. reflexivity. }
  match goal with
  | |- ?A /\ ?B /\ ?C /\ ?D /\ ?E /\ ?F =>
      assert (HA : A) by (toy_exec; exact Ha);
      assert (HB : B) by (toy_exec; rewrite Ha; f_equal; min_cases; lra);
      assert (HC : C)
        by (toy_exec; deriv_is_affine 0 0; exp_at_zero; deriv_is_affine (-1) 0; no_clip;
            repeat f_equal; lra);
      assert (HD : D) by exact toy_policy_stepped;
      assert (HE : E) by (rewrite HA, HC; toy_exec; f_equal; min_cases; lra)
  end.
  repeat (split; [assumption|]).
  intros H. rewrite HB, HE in H. injection H as H. lra.
Qed.

(** One call on the fresh trainer: the coefficient the call uses is attached
    to [log_alpha]; the gradient of the alpha loss alone is 0, and the buffer
    of [log_alpha] holds 1 when the call returns: the policy loss's backward
    pass has added its gradient exp(log_alpha)*mean(log_pi) = 1. *)
Lemma C3_counterexample_policy_gradient_reaches_log_alpha :
  exists L Q norms s2,
    call_locals sgd_step exact_autograd clip_by_norm Toy.batch tt tt Toy.trainer
    = (Val (L, Q, norms), s2)
    /\ graph (alpha_v L) = [LLogAlpha]
    /\ In LLogAlpha (graph (policy_loss L))
    /\ exact_autograd
         (fun p => fn (alpha_loss L) (with_leaf (leaf_params Toy.trainer) LLogAlpha p))
         [[0]] = [[0]]
    /\ log_alpha_grad (snd (Toy.train Toy.batch Toy.trainer)) = Some [[1]]
    /\ log_alpha_grad (snd (Toy.train Toy.batch Toy.trainer))
       <> Some (exact_autograd
                  (fun p => fn (alpha_loss L) (with_leaf (leaf_params Toy.trainer) LLogAlpha p))
                  [[0]]).
Proof.
  do 4 eexists. split; [toy_exec; reflexivity|].
  assert (Hg : log_alpha_grad (snd (Toy.train Toy.batch Toy.trainer)) = Some [[1]]).
  { toy_exec. deriv_is_affine 0 0. deriv_is_exp 1 (-2). exp_at_zero.
    repeat f_equal. lra. }
  split; [reflexivity|].
  split; [toy_exec; left; reflexivity|].
  split; [toy_exec; deriv_is_affine 0 0; reflexivity|].
  split; [exact Hg|].
  rewrite Hg. toy_exec. deriv_is_affine 0 0.
  intros H. injection H as H. lra.
Qed.

(** ** Further properties at the small trainer and its variants *)

Lemma toy_period_three_initialized : initialized (__init__ ToyCases.args_period_three).
Proof.
  unfold initialized, optimizers_assigned, entropy_assigned, ToyCases.args_period_three.
  exec. repeat split; try discriminate; intros; discriminate.
Qed.

Lemma toy_without_qf1_optimizer_entropy : entropy_assigned ToyCases.without_qf1_optimizer.
Proof.
  unfold entropy_assigned. exec. repeat split; discriminate.
Qed.

Lemma toy_zero_period_assigned :
  optimizers_assigned ToyCases.with_zero_period /\ entropy_assigned ToyCases.with_zero_period.
Proof.
  unfold optimizers_assigned, entropy_assigned. exec. repeat split; discriminate.
Qed.

Lemma toy_wrapped_initialized : initialized ToyCases.with_wrapped_policy.
Proof.
  unfold initialized, optimizers_assigned, entropy_assigned.
  exec. repeat split; discriminate.
Qed.

Lemma X1_witness :
  let s := __init__ ToyCases.args_period_three in
  let s' := snd (Toy.train Toy.batch s) in
  a_target_update_period ToyCases.args_period_three <> 0%Z
  /\ initialized s
  /\ fst (Toy.train Toy.batch s) = Val tt
  /\ _n_train_steps_total s' = 1%Z
  /\ _need_to_update_eval_statistics s' = false
  /\ od_get "Alpha Loss" (eval_statistics s') = Some (Num 0).
Proof.
  intros s s'.
  assert (H : a_target_update_period ToyCases.args_period_three <> 0%Z) by discriminate.
  destruct (X1_first_call_of_a_constructed_trainer sgd_step exact_autograd clip_by_norm
              ToyCases.args_period_three Toy.batch tt tt eq_refl eq_refl eq_refl H)
    as (Hinit & _ & _ & Hret & Hn & Hflag & _ & _ & _ & Hloss).
  split; [exact H|]. split; [exact Hinit|]. split; [exact Hret|]. split; [exact Hn|].
  split; [exact Hflag|exact (Hloss eq_refl)].
Defined.

Lemma X2_witness :
  let c := (Toy.batch, tt, tt) in
  let many := train_many sgd_step exact_autograd clip_by_norm in
  initialized Toy.trainer
  /\ initialized (many [c; c] Toy.trainer)
  /\ _n_train_steps_total (many [c; c] Toy.trainer) = 2%Z
  /\ fst (Toy.train Toy.batch (many [c] Toy.trainer)) = Val tt.
Proof.
  intros c many.
  destruct (X2_counter_counts_calls sgd_step exact_autograd clip_by_norm [c; c]
              (toy_initialized true))
    as (Hinit & Hn & Hret).
  split; [exact (toy_initialized true)|]. split; [exact Hinit|].
  split; [exact (eq_trans Hn eq_refl)|].
  exact (Hret [c] Toy.batch tt tt [] eq_refl).
Defined.

Lemma X5_witness :
  let s := ToyCases.without_qf1_optimizer in
  let s' := snd (Toy.train Toy.batch s) in
  entropy_assigned s
  /\ policy_optimizer s = Some 1
  /\ qf1_optimizer s = None
  /\ fst (Toy.train Toy.batch s) = Exc AttributeError
  /\ q_parameters (qf1 s') = q_parameters (qf1 s)
  /\ target_qf1 s' = target_qf1 s
  /\ _n_train_steps_total s' = 0%Z
  /\ _need_to_update_eval_statistics s' = true.
Proof.
  intros s s'.
  destruct (X5_missing_critic_optimizer_leaves_policy_stepped sgd_step exact_autograd
              clip_by_norm (s := ToyCases.without_qf1_optimizer) Toy.batch tt tt
              toy_without_qf1_optimizer_entropy eq_refl eq_refl)
    as (L & Q & s1 & _ & _ & Hexc & _ & _ & Hq1 & _ & Ht1 & _ & Hn & _ & Hflag).
  split; [exact toy_without_qf1_optimizer_entropy|].
  split; [reflexivity|]. split; [reflexivity|]. split; [exact Hexc|].
  split; [exact Hq1|]. split; [exact Ht1|].
  split; [exact (eq_trans Hn eq_refl)|exact (eq_trans Hflag eq_refl)].
Defined.

Lemma X6_witness :
  let s := ToyCases.with_zero_period in
  optimizers_assigned s
  /\ entropy_assigned s
  /\ target_update_period s = 0%Z
  /\ exists s2,
       Toy.train Toy.batch s = (Exc ZeroDivisionError, s2)
       /\ target_qf1 s2 = target_qf1 s
       /\ target_qf2 s2 = target_qf2 s
       /\ _n_train_steps_total s2 = 0%Z.
Proof.
  intros s.
  destruct (X6_zero_period_raises_after_the_updates sgd_step exact_autograd clip_by_norm
              (s := ToyCases.with_zero_period) Toy.batch tt tt
              (proj1 toy_zero_period_assigned) (proj2 toy_zero_period_assigned) eq_refl)
    as (L & Q & norms & s2 & po & qo1 & qo2 & _ & _ & _ & _ & E & _ & _ & _ & _
        & Ht1 & Ht2 & Hn & _).
  split; [exact (proj1 toy_zero_period_assigned)|].
  split; [exact (proj2 toy_zero_period_assigned)|]. split; [reflexivity|].
  exists s2. split; [exact E|]. split; [exact Ht1|]. split; [exact Ht2|].
  exact (eq_trans Hn eq_refl).
Defined.

Lemma X7_witness :
  let stale := with_grads Toy.trainer (Some [[5]]) (Some [[6]]) (Some [[7]]) (Some [[8]]) in
  initialized Toy.trainer
  /\ use_automatic_entropy_tuning Toy.trainer = true
  /\ Toy.train Toy.batch stale = Toy.train Toy.batch Toy.trainer.
Proof.
  intros stale.
  destruct (X7_stale_gradients_are_not_used sgd_step exact_autograd clip_by_norm
              Toy.batch tt tt (Some [[5]]) (Some [[6]]) (Some [[7]]) (Some [[8]])
              (toy_initialized true))
    as (Hfst & _ & Hsnd & _).
  split; [exact (toy_initialized true)|]. split; [reflexivity|].
  apply injective_projections; [exact Hfst|exact (Hsnd eq_refl)].
Defined.

Lemma X8_witness :
  initialized Toy.trainer
  /\ use_automatic_entropy_tuning Toy.trainer = true
  /\ Toy.train Toy.batch (with_alpha Toy.trainer 7)
     = (fst (Toy.train Toy.batch Toy.trainer),
        with_alpha (snd (Toy.train Toy.batch Toy.trainer)) 7).
Proof.
  split; [exact (toy_initialized true)|]. split; [reflexivity|].
  exact (X8_fixed_alpha_unused_when_tuning sgd_step exact_autograd clip_by_norm
           Toy.batch tt tt 7 (toy_initialized true) eq_refl).
Defined.

Lemma X9_witness :
  let s1 := snd (Toy.train Toy.batch Toy.trainer) in
  let s2 := snd (Toy.train ToyCases.other_batch Toy.trainer) in
  initialized Toy.trainer
  /\ observations Toy.batch = observations ToyCases.other_batch
  /\ rewards Toy.batch <> rewards ToyCases.other_batch
  /\ policy s1 = policy s2
  /\ log_alpha s1 = log_alpha s2.
Proof.
  intros s1 s2.
  destruct (X9_policy_update_reads_observations_only sgd_step exact_autograd clip_by_norm
              (s := Toy.trainer) Toy.batch ToyCases.other_batch tt tt tt
              (toy_initialized true) eq_refl)
    as (Hp & _ & Hla & _).
  split; [exact (toy_initialized true)|]. split; [reflexivity|].
  split.
  - intros H. injection H as H. lra.
  - split; [exact Hp|exact Hla].
Defined.

Lemma X10_witness :
  initialized Toy.trainer
  /\ _need_to_update_eval_statistics Toy.trainer = true
  /\ exists L Q norms s2,
       call_locals sgd_step exact_autograd clip_by_norm Toy.batch tt tt Toy.trainer
       = (Val (L, Q, norms), s2)
       /\ od_get "QF1 Loss" (eval_statistics (snd (Toy.train Toy.batch Toy.trainer)))
          = Some (Num (data (qf1_loss Q)))
       /\ 0 <= data (qf1_loss Q)
       /\ od_get "QF1 Grad Norm" (eval_statistics (snd (Toy.train Toy.batch Toy.trainer)))
          = Some (Num (snd (fst norms))).
Proof.
  split; [exact (toy_initialized true)|]. split; [reflexivity|].
  destruct (X10_reported_losses_and_norms sgd_step exact_autograd clip_by_norm
              Toy.batch tt tt (toy_initialized true) eq_refl)
    as (L & Q & np & n1 & n2 & s2 & E & Hl1 & _ & Hpos & _ & _ & Hn1 & _).
  exists L, Q, (np, n1, n2), s2.
  split; [exact E|]. split; [exact Hl1|]. split; [exact Hpos|exact Hn1].
Defined.

Lemma X12_witness :
  let c := (Toy.batch, tt, tt) in
  let many := train_many sgd_step exact_autograd clip_by_norm in
  let s := __init__ ToyCases.args_period_three in
  initialized s
  /\ target_update_period s = 3%Z
  /\ target_qf1 (snd (Toy.train Toy.batch (many [c] s))) = target_qf1 (many [c] s)
  /\ q_parameters (target_qf1 (snd (Toy.train Toy.batch (many [c; c; c] s))))
     = soft_update_from_to (q_parameters (qf1 (snd (Toy.train Toy.batch (many [c; c; c] s)))))
         (q_parameters (target_qf1 (many [c; c; c] s))) (soft_target_tau s).
Proof.
  intros c many s.
  assert (Hskip : ((_n_train_steps_total (__init__ ToyCases.args_period_three)
                    + Z.of_nat (List.length [c]))
                   mod target_update_period (__init__ ToyCases.args_period_three))%Z <> 0%Z).
  { intros H. cbv in H. discriminate H. }
  assert (Hsync : ((_n_train_steps_total (__init__ ToyCases.args_period_three)
                    + Z.of_nat (List.length [c; c; c]))
                   mod target_update_period (__init__ ToyCases.args_period_three))%Z = 0%Z).
  { reflexivity. }
  split; [exact toy_period_three_initialized|]. split; [reflexivity|].
  split.
  - exact (proj1 (proj2 (X12_synchronisation_schedule sgd_step exact_autograd clip_by_norm
                           [c] Toy.batch tt tt toy_period_three_initialized) Hskip)).
  - exact (proj1 (proj1 (X12_synchronisation_schedule sgd_step exact_autograd clip_by_norm
                           [c; c; c] Toy.batch tt tt toy_period_three_initialized) Hsync)).
Defined.

Lemma X13_witness :
  let c := (Toy.batch, tt, tt) in
  let many := train_many sgd_step exact_autograd clip_by_norm in
  initialized Toy.trainer_with_stale_key
  /\ In "Stale"%string (od_keys (eval_statistics Toy.trainer_with_stale_key))
  /\ ~ In "Stale"%string statistics_keys
  /\ In "Stale"%string (od_keys (eval_statistics (many [c; c] Toy.trainer_with_stale_key)))
  /\ od_get "Stale" (eval_statistics (many [c; c] Toy.trainer_with_stale_key))
     = Some (Num 0).
Proof.
  intros c many.
  assert (Hin : In "Stale"%string (od_keys (eval_statistics Toy.trainer_with_stale_key))).
  { left. reflexivity. }
  assert (Hout : ~ In "Stale"%string statistics_keys).
  { intros H. cbv in H. intuition discriminate. }
  destruct (X13_statistics_keys_persist sgd_step exact_autograd clip_by_norm [c; c]
              toy_stale_initialized)
    as (Hkeys & Hvalues).
  split; [exact toy_stale_initialized|]. split; [exact Hin|]. split; [exact Hout|].
  split; [exact (Hkeys _ Hin)|exact (eq_trans (Hvalues _ Hout) eq_refl)].
Defined.

Lemma X14_witness :
  let other := set_qf2_optimizer (set_qf2 Toy.trainer (Toy.critic 5)) (Some 2) in
  initialized Toy.trainer
  /\ qf1 (snd (Toy.train Toy.batch other)) = qf1 (snd (Toy.train Toy.batch Toy.trainer))
  /\ target_qf1 (snd (Toy.train Toy.batch other))
     = target_qf1 (snd (Toy.train Toy.batch Toy.trainer)).
Proof.
  intros other.
  destruct (X14_critic_updates_are_independent sgd_step exact_autograd clip_by_norm
              Toy.batch tt tt (Toy.critic 5) 2 (toy_initialized true))
    as (Hq & _ & Ht & _).
  split; [exact (toy_initialized true)|]. split; [exact Hq|exact Ht].
Defined.

Lemma X11_witness :
  let s := ToyCases.with_wrapped_policy in
  let s' := train_many sgd_step exact_autograd clip_by_norm [(Toy.batch, tt, tt)] s in
  initialized s
  /\ p_module (policy s) = Some "inner policy"%string
  /\ exists sn,
       get_snapshot s' = (Val sn, s')
       /\ sn_policy sn = ItsModule "inner policy"%string
       /\ sn_qf1 sn = Itself (qf1 s').
Proof.
  intros s s'. split; [exact toy_wrapped_initialized|]. split; [reflexivity|].
  destruct (proj1 (X11_snapshot sgd_step exact_autograd clip_by_norm
                     [(Toy.batch, tt, tt)] toy_wrapped_initialized))
    as (po & qo1 & qo2 & _ & _ & _ & E).
  eexists. split; [exact E|]. split; reflexivity.
Defined.
